(** * tk-flame-export: export presets (python/tk_flame_export_no_ui/export_preset.py)

    A shallow embedding of [ExportPreset] and [ExportPresetHandler] together
    with the Python string primitives they rely on ([str.replace],
    [str.lstrip], [os.path.splitext], the [%s] conversion), followed by the
    properties of the template translation, the publish names, the quicktime
    path and the preset lookup. *)

From Stdlib Require Import Ascii ZArith Lia.
From stdpp Require Import gmap strings list fin_maps pretty.

Local Open Scope Z_scope.

(** ** Python byte strings

    The module is Python 2 code: [str] is a byte string, which is what
    [string] (a list of 8-bit [ascii]) is. *)

Module PyStr.

(** [s.startswith(p)] *)
Fixpoint startswith (p s : string) : bool :=
  match p, s with
  | EmptyString, _ => true
  | String _ _, EmptyString => false
  | String a p', String b s' => bool_decide (a = b) && startswith p' s'
  end.

(** [s[n:]] and [s[:n]] for a non-negative [n] *)
Fixpoint drop (n : nat) (s : string) : string :=
  match n, s with
  | O, _ => s
  | S _, EmptyString => EmptyString
  | S n', String _ s' => drop n' s'
  end.

Fixpoint take (n : nat) (s : string) : string :=
  match n, s with
  | O, _ => EmptyString
  | S _, EmptyString => EmptyString
  | S n', String c s' => String c (take n' s')
  end.

(** [c in s] for a single character *)
Fixpoint has_char (c : ascii) (s : string) : bool :=
  match s with
  | EmptyString => false
  | String a s' => bool_decide (a = c) || has_char c s'
  end.

(** [tok in s]: some suffix of [s] starts with [tok] *)
Fixpoint occurs (tok s : string) : bool :=
  startswith tok s ||
  match s with
  | EmptyString => false
  | String _ s' => occurs tok s'
  end.

(** [s.replace(old, new)] for a non-empty [old]: scan from the left, and at
    each occurrence of [old] emit [new] and skip the rest of the occurrence
    ([skip] counts the characters of it that are still to be dropped). *)
Fixpoint replace_go (old new : string) (skip : nat) (s : string) : string :=
  match s with
  | EmptyString => EmptyString
  | String c s' =>
      match skip with
      | S k => replace_go old new k s'
      | O =>
          if startswith old s
          then new +:+ replace_go old new (String.length old - 1) s'
          else String c (replace_go old new 0 s')
      end
  end.

(** [s.replace("", new)]: [new] before every character and at the end *)
Fixpoint interleave (new s : string) : string :=
  match s with
  | EmptyString => new
  | String c s' => new +:+ String c (interleave new s')
  end.

Definition replace (old new s : string) : string :=
  match old with
  | EmptyString => interleave new s
  | String _ _ => replace_go old new 0 s
  end.

(** [s.rfind(c)] for a single character: the highest index, or -1 *)
Fixpoint rfind_go (c : ascii) (s : string) (i last : Z) : Z :=
  match s with
  | EmptyString => last
  | String a s' => rfind_go c s' (i + 1) (if bool_decide (a = c) then i else last)
  end.

Definition rfind (c : ascii) (s : string) : Z := rfind_go c s 0 (-1).

(** [s.lstrip(chars)]: drop the leading characters that are in [chars] *)
Fixpoint lstrip (chars s : string) : string :=
  match s with
  | EmptyString => EmptyString
  | String c s' => if has_char c chars then lstrip chars s' else s
  end.

End PyStr.

(** ** [os.path.splitext] (posixpath, through [genericpath._splitext])

<<
  sepIndex = p.rfind(sep)
  dotIndex = p.rfind(extsep)
  if dotIndex > sepIndex:
      # skip all leading dots
      filenameIndex = sepIndex + 1
      while filenameIndex < dotIndex:
          if p[filenameIndex] != extsep:
              return p[:dotIndex], p[dotIndex:]
          filenameIndex += 1
  return p, ''
>> *)

Module PosixPath.

(** The [while] loop: [n] is [dotIndex - filenameIndex]; [None] stands for
    falling out of the loop. *)
Fixpoint splitext_loop (p : string) (filenameIndex n dotIndex : nat)
  : option (string * string) :=
  match n with
  | O => None
  | S n' =>
      if bool_decide (String.get filenameIndex p = Some "."%char)
      then splitext_loop p (S filenameIndex) n' dotIndex
      else Some (PyStr.take dotIndex p, PyStr.drop dotIndex p)
  end.

Definition splitext (p : string) : string * string :=
  let sepIndex := PyStr.rfind "/"%char p in
  let dotIndex := PyStr.rfind "."%char p in
  if bool_decide (sepIndex < dotIndex) then
    let filenameIndex := sepIndex + 1 in
    match splitext_loop p (Z.to_nat filenameIndex)
            (Z.to_nat (dotIndex - filenameIndex)) (Z.to_nat dotIndex) with
    | Some r => r
    | None => (p, EmptyString)
    end
  else (p, EmptyString).

End PosixPath.

(** ** Toolkit to Flame template translation
    ([ExportPreset.__resolve_flame_templates], the body of the loop) *)

(** ["{%s}" % shot_parent_entity_type] *)
Definition parent_token (shot_parent_entity_type : string) : string :=
  "{" +:+ shot_parent_entity_type +:+ "}".

(** The thirteen [replace] calls, in the order of the source. *)
Definition substitute (shot_parent_entity_type : string) (definition : string) : string :=
  let t := definition in
  let t := PyStr.replace (parent_token shot_parent_entity_type) "<name>" t in
  let t := PyStr.replace "{Shot}" "<shot name>" t in
  let t := PyStr.replace "{segment_name}" "<segment name>" t in
  let t := PyStr.replace "{version}" "<version>" t in
  let t := PyStr.replace "{SEQ}" "<frame>" t in
  let t := PyStr.replace "{YYYY}" "<YYYY>" t in
  let t := PyStr.replace "{MM}" "<MM>" t in
  let t := PyStr.replace "{DD}" "<DD>" t in
  let t := PyStr.replace "{hh}" "<hh>" t in
  let t := PyStr.replace "{mm}" "<mm>" t in
  let t := PyStr.replace "{ss}" "<ss>" t in
  let t := PyStr.replace "{width}" "<width>" t in
  let t := PyStr.replace "{height}" "<height>" t in
  t.

(** [(head, _) = os.path.splitext(t); "%s<ext>" % head] *)
Definition carry_ext (t : string) : string :=
  let '(head, _) := PosixPath.splitext t in
  head +:+ "<ext>".

Definition resolve_flame_template (shot_parent_entity_type definition : string) : string :=
  carry_ext (substitute shot_parent_entity_type definition).

(** The same calls as a table of (token, placeholder) pairs, applied from
    the first to the last. *)
Definition substitutions (shot_parent_entity_type : string) : list (string * string) :=
  [ (parent_token shot_parent_entity_type, "<name>");
    ("{Shot}", "<shot name>");
    ("{segment_name}", "<segment name>");
    ("{version}", "<version>");
    ("{SEQ}", "<frame>");
    ("{YYYY}", "<YYYY>");
    ("{MM}", "<MM>");
    ("{DD}", "<DD>");
    ("{hh}", "<hh>");
    ("{mm}", "<mm>");
    ("{ss}", "<ss>");
    ("{width}", "<width>");
    ("{height}", "<height>") ].

Definition apply_substitutions (table : list (string * string)) (t : string) : string :=
  foldl (λ t '(old, new), PyStr.replace old new t) t table.

(** A token opens with a brace and holds no "<"; a placeholder opens with
    "<" and holds no brace. *)
Definition is_token (old : string) : bool :=
  match old with
  | String "{" r => negb (PyStr.has_char "<" r)
  | _ => false
  end.

Definition is_placeholder (new : string) : bool :=
  match new with
  | String "<" n => negb (PyStr.has_char "{" n)
  | _ => false
  end.

Definition well_formed_entry (e : string * string) : bool :=
  is_token e.1 && is_placeholder e.2.

(** ** Python values, exceptions and results *)

(** What a preset record of the [plate_presets] setting holds under a key:
    a string (names, publish types, template names), a boolean
    ([upload_quicktime]) or the null value (an unset template). *)
Inductive Setting :=
  | SNone
  | SBool (b : bool)
  | SStr (s : string).

(** What a template extracts from a path for a key: a string or an integer
    (["Shot"], ["segment_name"]; ["version"], ["SEQ"]). *)
Inductive FieldVal :=
  | FStr (s : string)
  | FInt (z : Z).

Global Instance Setting_eq_dec : EqDecision Setting.
Proof. solve_decision. Defined.

Global Instance Setting_countable : Countable Setting.
Proof.
  refine (inj_countable'
    (λ v, match v with
          | SNone => inl ()
          | SBool b => inr (inl b)
          | SStr s => inr (inr s)
          end)
    (λ x, match x with
          | inl _ => SNone
          | inr (inl b) => SBool b
          | inr (inr s) => SStr s
          end) _).
  by intros [].
Defined.

(** Truth value of a setting ([if quicktime_template_name:]) *)
Definition truthy (v : Setting) : bool :=
  match v with
  | SNone => false
  | SBool b => b
  | SStr s => negb (bool_decide (s = ""))
  end.

(** [str(v)], the conversion [%s] applies *)
Definition str_setting (v : Setting) : string :=
  match v with
  | SNone => "None"
  | SBool true => "True"
  | SBool false => "False"
  | SStr s => s
  end.

(** [str(fields.get(k))]: [dict.get] gives [None] for a missing key *)
Definition str_field (v : option FieldVal) : string :=
  match v with
  | None => "None"
  | Some (FStr s) => s
  | Some (FInt z) => pretty z
  end.

(** The exceptions of the module: [TankError] is the one it raises itself,
    [KeyError] comes from [d[k]], [AttributeError] from a method call on
    None, and [HostError] is any other failure of a host call. *)
Inductive PyExc :=
  | TankError (msg : string)
  | KeyError (key : string)
  | AttributeError (attr : string)
  | HostError (msg : string).

(** A call returns a value or raises. *)
Inductive Result (A : Type) :=
  | Ok (a : A)
  | Raise (e : PyExc).
Global Arguments Ok {A} a.
Global Arguments Raise {A} e.

Global Instance Result_ret : MRet Result := λ A a, Ok a.
Global Instance Result_bind : MBind Result := λ A B f m,
  match m with
  | Ok a => f a
  | Raise e => Raise e
  end.

(** [d[k]] on a dictionary with string keys *)
Definition getitem {V} (d : gmap string V) (k : string) : Result V :=
  match d !! k with
  | Some v => Ok v
  | None => Raise (KeyError k)
  end.

(** ** The host: templates and the app bundle

    The Toolkit core is not part of this repository. A template is what the
    code uses of it: [validate], [get_fields], [apply_fields], [definition]
    and [keys] with their [format_spec]. *)

Record TemplateKey := { format_spec : string }.

Record Template := {
  validate : string → bool;
  get_fields : string → Result (gmap string FieldVal);
  apply_fields : gmap string FieldVal → Result string;
  definition : string;
  keys : gmap string TemplateKey
}.

(** [sgtk.platform.current_bundle()]: the settings, the template registry,
    the settings hook and the engine. Its log methods return nothing and
    are left out. *)
Record App := {
  get_template_by_name : Setting → option Template;
  get_template : string → option Template;
  shot_parent_entity_type : string;
  plate_presets : list (gmap string Setting);
  get_video_preset : Setting → string → bool → Result string;
  preset_version : string
}.

(** [repr] of a settings dictionary; its text follows the interpreter's
    dictionary order and stays abstract. *)
Class ReprDict := repr_dict : gmap string Setting → string.

(** ** ExportPreset *)

Record ExportPreset := {
  _app : App;
  _raw_preset : gmap string Setting
}.

(** [__repr__] *)
Definition ExportPreset_repr `{R : ReprDict} (self : ExportPreset) : string :=
  "<ExportPreset " +:+ repr_dict (_raw_preset self) +:+ ">".

(** ["%s, %s" % (fields.get("Shot"), fields.get("segment_name"))] *)
Definition publish_name_of (fields : gmap string FieldVal) : string :=
  str_field (fields !! "Shot") +:+ ", " +:+ str_field (fields !! "segment_name").

(** [__get_publish_name] *)
Definition get_publish_name (template : option Template) (path : string)
  : Result string :=
  match template with
  | None => Ok "Unknown"
  | Some t =>
      if negb (validate t path) then Ok "Unknown"
      else
        fields ← get_fields t path;
        Ok (publish_name_of fields)
  end.

Definition get_name (self : ExportPreset) : Result Setting :=
  getitem (_raw_preset self) "name".

Definition get_render_template (self : ExportPreset) : Result (option Template) :=
  render_template_name ← getitem (_raw_preset self) "template";
  Ok (get_template_by_name (_app self) render_template_name).

Definition get_render_publish_type (self : ExportPreset) : Result Setting :=
  getitem (_raw_preset self) "publish_type".

Definition get_render_publish_name (self : ExportPreset) (path : string)
  : Result string :=
  template ← get_render_template self;
  get_publish_name template path.

Definition get_quicktime_template (self : ExportPreset) : Result (option Template) :=
  quicktime_template_name ← getitem (_raw_preset self) "quicktime_template";
  if truthy quicktime_template_name
  then Ok (get_template_by_name (_app self) quicktime_template_name)
  else Ok None.

Definition make_highres_quicktime (self : ExportPreset) : Result bool :=
  template ← get_quicktime_template self;
  Ok (match template with Some _ => true | None => false end).

(** A method or attribute of a template that may be None *)
Definition attr {A} (template : option Template) (name : string)
    (f : Template → Result A) : Result A :=
  match template with
  | Some t => f t
  | None => Raise (AttributeError name)
  end.

Definition quicktime_path_from_render_path `{R : ReprDict}
    (self : ExportPreset) (render_path : string) : Result string :=
  template ← get_quicktime_template self;
  match template with
  | None =>
      Raise (TankError (ExportPreset_repr self +:+
        ": Cannot evaluate quicktime path because no quicktime template has been defined."))
  | Some _ =>
      render_template ← get_render_template self;
      fields ← attr render_template "get_fields" (λ t, get_fields t render_path);
      quicktime_template ← get_quicktime_template self;
      attr quicktime_template "apply_fields" (λ t, apply_fields t fields)
  end.

Definition get_quicktime_publish_type (self : ExportPreset) : Result Setting :=
  getitem (_raw_preset self) "quicktime_publish_type".

Definition get_quicktime_publish_name (self : ExportPreset) (path : string)
  : Result string :=
  template ← get_quicktime_template self;
  get_publish_name template path.

Definition upload_quicktime (self : ExportPreset) : Result Setting :=
  getitem (_raw_preset self) "upload_quicktime".

(** [cgi.escape(s)] *)
Definition cgi_escape (s : string) : string :=
  let s := PyStr.replace "&" "&amp;" s in
  let s := PyStr.replace "<" "&lt;" s in
  let s := PyStr.replace ">" "&gt;" s in
  s.

(** [__resolve_flame_templates] *)
Definition resolve_flame_templates (self : ExportPreset) : Result (gmap string string) :=
  let parent := shot_parent_entity_type (_app self) in
  render_template ← get_render_template self;
  plate ← attr render_template "definition" (λ t, Ok (definition t));
  batch ← attr (get_template (_app self) "batch_template") "definition"
             (λ t, Ok (definition t));
  shot_clip ← attr (get_template (_app self) "shot_clip_template") "definition"
                 (λ t, Ok (definition t));
  segment_clip ← attr (get_template (_app self) "segment_clip_template") "definition"
                    (λ t, Ok (definition t));
  let template_defs : gmap string string :=
    <["segment_clip_template" := segment_clip]>
      (<["shot_clip_template" := shot_clip]>
        (<["batch_template" := batch]>
          (<["plate_template" := plate]> ∅))) in
  Ok (resolve_flame_template parent <$> template_defs).

Definition dq : string := String "034"%char EmptyString.
Definition newline : string := String "010"%char EmptyString.

Fixpoint unlines (ls : list string) : string :=
  match ls with
  | [] => EmptyString
  | [l] => l
  | l :: ls' => l +:+ newline +:+ unlines ls'
  end.

(** The xml scaffold of [get_xml_path], [% preset_version] applied. *)
Definition scaffold (preset_version : string) : string := unlines [
    "<?xml version=" +:+ dq +:+ "1.0" +:+ dq +:+ " encoding=" +:+ dq +:+ "UTF-8" +:+ dq +:+ "?>";
    "            <preset version=" +:+ dq +:+ preset_version +:+ dq +:+ ">";
    "               <type>sequence</type>";
    "               <comment>Export profile for the Shotgun Flame export</comment>";
    "               <sequence>";
    "                  <fileType>NONE</fileType>";
    "                  <namePattern />";
    "                  <includeVideo>True</includeVideo>";
    "                  <exportVideo>True</exportVideo>";
    "                  <videoMedia>";
    "                     <mediaFileType>image</mediaFileType>";
    "                     <commit>Original</commit>";
    "                     <flatten>NoChange</flatten>";
    "                     <exportHandles>True</exportHandles>";
    "                     <nbHandles>10</nbHandles>";
    "                  </videoMedia>";
    "                  <includeAudio>True</includeAudio>";
    "                  <exportAudio>False</exportAudio>";
    "                  <audioMedia>";
    "                     <mediaFileType>audio</mediaFileType>";
    "                     <commit>Original</commit>";
    "                     <flatten>NoChange</flatten>";
    "                     <exportHandles>True</exportHandles>";
    "                     <nbHandles>10</nbHandles>";
    "                  </audioMedia>";
    "               </sequence>";
    "            ";
    "               {VIDEO_EXPORT_PRESET}";
    "               ";
    "               <name>";
    "                  <framePadding>{FRAME_PADDING}</framePadding>";
    "                  <startFrame>100</startFrame>";
    "                  <useTimecode>False</useTimecode>";
    "               </name>";
    "               <createOpenClip>";
    "                  <namePattern>{SEGMENT_CLIP_NAME_PATTERN}</namePattern>";
    "                  <version>";
    "                     <index>0</index>";
    "                     <padding>{VERSION_PADDING}</padding>";
    "                     <name>v&lt;version&gt;</name>";
    "                  </version>";
    "                  <batchSetup>";
    "                     <namePattern>{BATCH_NAME_PATTERN}</namePattern>";
    "                     <exportNamePattern>{SHOT_CLIP_NAME_PATTERN}</exportNamePattern>";
    "                  </batchSetup>";
    "               </createOpenClip>";
    "               <reImport>";
    "                  <namePattern />";
    "               </reImport>";
    "            </preset>";
    "        "
  ].

(** [template.keys[name].format_spec.lstrip("0")] *)
Definition padding (template : option Template) (name : string) : Result string :=
  key ← attr template "keys" (λ t, getitem (keys t) name);
  Ok (PyStr.lstrip "0" (format_spec key)).

(** [get_xml_path], up to the text it hands to [__write_content_to_file]
    (which stores it as export_preset.xml in the app's cache location). *)
Definition get_xml (self : ExportPreset) : Result string :=
  resolved_flame_templates ← resolve_flame_templates self;
  plate ← getitem resolved_flame_templates "plate_template";
  let escaped_video_name_pattern := cgi_escape plate in
  preset_name ← get_name self;
  video_preset_xml ←
    get_video_preset (_app self) preset_name escaped_video_name_pattern true;
  let xml := scaffold (preset_version (_app self)) in
  let xml := PyStr.replace "{VIDEO_EXPORT_PRESET}" video_preset_xml xml in
  segment_clip ← getitem resolved_flame_templates "segment_clip_template";
  let xml := PyStr.replace "{SEGMENT_CLIP_NAME_PATTERN}" (cgi_escape segment_clip) xml in
  batch ← getitem resolved_flame_templates "batch_template";
  let xml := PyStr.replace "{BATCH_NAME_PATTERN}" (cgi_escape batch) xml in
  shot_clip ← getitem resolved_flame_templates "shot_clip_template";
  let xml := PyStr.replace "{SHOT_CLIP_NAME_PATTERN}" (cgi_escape shot_clip) xml in
  template ← get_render_template self;
  format_spec ← padding template "SEQ";
  let xml := PyStr.replace "{FRAME_PADDING}" format_spec xml in
  format_spec ← padding template "version";
  let xml := PyStr.replace "{VERSION_PADDING}" format_spec xml in
  Ok xml.

(** ** ExportPresetHandler *)

Record ExportPresetHandler := {
  _handler_app : App;
  _export_presets : gmap Setting ExportPreset
}.

(** The loop of [__init__] over [raw_preset_data] *)
Fixpoint load_presets (app : App) (raw_preset_data : list (gmap string Setting))
    (export_presets : gmap Setting ExportPreset)
  : Result (gmap Setting ExportPreset) :=
  match raw_preset_data with
  | [] => Ok export_presets
  | raw_preset :: rest =>
      preset_name ← getitem raw_preset "name";
      load_presets app rest
        (<[preset_name := {| _app := app; _raw_preset := raw_preset |}]> export_presets)
  end.

(** [__init__] *)
Definition ExportPresetHandler_init (app : App) : Result ExportPresetHandler :=
  export_presets ← load_presets app (plate_presets app) ∅;
  Ok {| _handler_app := app; _export_presets := export_presets |}.

(** The order in which the dictionary is walked: fixed, and not specified. *)
Definition items (self : ExportPresetHandler) : list (Setting * ExportPreset) :=
  map_to_list (_export_presets self).

Definition get_preset_names (self : ExportPresetHandler) : list Setting :=
  (items self).*1.

(** ["Export preset manager cannot find preset '%s' in the configuration!" % preset_name] *)
Definition not_found_message (preset_name : Setting) : string :=
  "Export preset manager cannot find preset '" +:+ str_setting preset_name +:+
  "' in the configuration!".

Definition get_preset_by_name (self : ExportPresetHandler) (preset_name : Setting)
  : Result ExportPreset :=
  match _export_presets self !! preset_name with
  | None =>
      Raise (TankError (not_found_message preset_name))
  | Some preset => Ok preset
  end.

(** The [for] loop of [get_preset_for_render_path] with its [break] *)
Fixpoint first_matching (presets : list ExportPreset) (path : string)
  : Result (option ExportPreset) :=
  match presets with
  | [] => Ok None
  | preset_obj :: rest =>
      template ← get_render_template preset_obj;
      matches ← attr template "validate" (λ t, Ok (validate t path));
      if matches : bool then Ok (Some preset_obj) else first_matching rest path
  end.

Definition get_preset_for_render_path (self : ExportPresetHandler) (path : string)
  : Result (option ExportPreset) :=
  first_matching (items self).*2 path.

(** What the code expects of the host's templates: a path that [validate]
    accepts is one [get_fields] extracts fields from. *)
Definition extracts_validated (t : Template) : Prop :=
  ∀ path, validate t path = true → ∃ fields, get_fields t path = Ok fields.

(** A preset accepts a path when its render template validates it, and
    rejects it when its render template does not. *)
Definition accepts (preset : ExportPreset) (path : string) : Prop :=
  ∃ t, get_render_template preset = Ok (Some t) ∧ validate t path = true.

Definition rejects (preset : ExportPreset) (path : string) : Prop :=
  ∃ t, get_render_template preset = Ok (Some t) ∧ validate t path = false.

(** Every preset is stored under the name its own record declares. *)
Definition keyed_by_name (export_presets : gmap Setting ExportPreset) : Prop :=
  ∀ preset_name preset,
    export_presets !! preset_name = Some preset → get_name preset = Ok preset_name.


(** ** A sample configuration

    One plate preset with a quicktime output, one without, and a host that
    knows their templates. Used to run the definitions on concrete input. *)

Module Sample.

Definition render_path : string :=
  "sequences/aa/sh010/editorial/plates/bg_sh010.v001.0001.dpx".

Definition quicktime_path : string :=
  "sequences/aa/sh010/editorial/quicktimes/bg_sh010.v001.mov".

Definition fields : gmap string FieldVal :=
  list_to_map [("Sequence", FStr "aa"); ("Shot", FStr "sh010");
               ("segment_name", FStr "bg"); ("version", FInt 1); ("SEQ", FInt 1)].

Definition no_match {A} : Result A :=
  Raise (TankError "Path does not match the template").

Definition has_keys (ks : list string) (f : gmap string FieldVal) : bool :=
  forallb (λ k, match f !! k with Some _ => true | None => false end) ks.

Definition plate : Template := {|
  validate p := bool_decide (p = render_path);
  get_fields p := if bool_decide (p = render_path) then Ok fields else no_match;
  apply_fields f :=
    if has_keys ["Sequence"; "Shot"; "segment_name"; "version"; "SEQ"] f
    then Ok render_path else no_match;
  definition :=
    "sequences/{Sequence}/{Shot}/editorial/plates/{segment_name}_{Shot}.v{version}.{SEQ}.dpx";
  keys := list_to_map [("SEQ", {| format_spec := "04" |});
                       ("version", {| format_spec := "03" |})]
|}.

Definition quicktime : Template := {|
  validate p := bool_decide (p = quicktime_path);
  get_fields p :=
    if bool_decide (p = quicktime_path) then Ok (delete "SEQ" fields) else no_match;
  apply_fields f :=
    if has_keys ["Sequence"; "Shot"; "segment_name"; "version"] f
    then Ok quicktime_path else no_match;
  definition :=
    "sequences/{Sequence}/{Shot}/editorial/quicktimes/{segment_name}_{Shot}.v{version}.mov";
  keys := list_to_map [("version", {| format_spec := "03" |})]
|}.

(** A template without shot or segment keys: every path under "review/" *)
Definition review : Template := {|
  validate p := PyStr.startswith "review/" p;
  get_fields p :=
    if PyStr.startswith "review/" p
    then Ok {[ "name" := FStr (PyStr.drop 7 p) ]} else no_match;
  apply_fields f :=
    match f !! "name" with
    | Some v => Ok ("review/" +:+ str_field (Some v))
    | None => no_match
    end;
  definition := "review/{name}";
  keys := ∅
|}.

Definition clip (d : string) : Template := {|
  validate p := false;
  get_fields p := no_match;
  apply_fields f := no_match;
  definition := d;
  keys := ∅
|}.

Definition raw_dpx : gmap string Setting :=
  list_to_map [("name", SStr "10 bit DPX"); ("publish_type", SStr "Flame Render");
               ("template", SStr "flame_shot_render_dpx");
               ("quicktime_template", SStr "flame_shot_quicktime");
               ("quicktime_publish_type", SStr "Flame Quicktime");
               ("upload_quicktime", SBool true)].

Definition raw_review : gmap string Setting :=
  list_to_map [("name", SStr "Review"); ("publish_type", SStr "Flame Render");
               ("template", SStr "flame_review");
               ("quicktime_template", SStr "");
               ("quicktime_publish_type", SStr "Flame Quicktime");
               ("upload_quicktime", SBool false)].

Definition app : App := {|
  get_template_by_name v :=
    match v with
    | SStr "flame_shot_render_dpx" => Some plate
    | SStr "flame_shot_quicktime" => Some quicktime
    | SStr "flame_review" => Some review
    | _ => None
    end;
  get_template k :=
    match k with
    | "batch_template" =>
        Some (clip "sequences/{Sequence}/{Shot}/editorial/flame/batch/{Shot}.v{version}.batch")
    | "shot_clip_template" =>
        Some (clip "sequences/{Sequence}/{Shot}/editorial/flame/{Shot}.clip")
    | "segment_clip_template" =>
        Some (clip "sequences/{Sequence}/{Shot}/editorial/flame/sources/{segment_name}.clip")
    | _ => None
    end;
  shot_parent_entity_type := "Sequence";
  plate_presets := [raw_dpx; raw_review];
  get_video_preset name pattern linked :=
    Ok ("<video><namePattern>" +:+ pattern +:+ "</namePattern></video>");
  preset_version := "4"
|}.

Definition dpx : ExportPreset := {| _app := app; _raw_preset := raw_dpx |}.
Definition rev : ExportPreset := {| _app := app; _raw_preset := raw_review |}.

(** The handler [__init__] builds for [app] *)
Definition handler : ExportPresetHandler := {|
  _handler_app := app;
  _export_presets := <[SStr "Review" := rev]> (<[SStr "10 bit DPX" := dpx]> ∅)
|}.

(** A record that lacks the "quicktime_template" key *)
Definition keyless : ExportPreset :=
  {| _app := app; _raw_preset := delete "quicktime_template" raw_dpx |}.

Definition repr : ReprDict := λ d,
  "{'name': '" +:+ from_option str_setting "" (d !! "name") +:+ "', ...}".

End Sample.

(** The twelve entries of the table that do not depend on the settings *)
Definition fixed_substitutions : list (string * string) :=
  [ ("{Shot}", "<shot name>");
    ("{segment_name}", "<segment name>");
    ("{version}", "<version>");
    ("{SEQ}", "<frame>");
    ("{YYYY}", "<YYYY>");
    ("{MM}", "<MM>");
    ("{DD}", "<DD>");
    ("{hh}", "<hh>");
    ("{mm}", "<mm>");
    ("{ss}", "<ss>");
    ("{width}", "<width>");
    ("{height}", "<height>") ].

(** An entry whose token has its only opening brace in front and whose
    placeholder has none *)
Definition plain_entry (e : string * string) : bool :=
  match e.1 with
  | String "{" r => negb (PyStr.has_char "{" r)
  | _ => false
  end && negb (PyStr.has_char "{" e.2).

(** Neither token is the beginning of the other. *)
Definition apart (old1 old2 : string) : bool :=
  negb (PyStr.startswith old1 old2) && negb (PyStr.startswith old2 old1).

(** No two tokens of the table begin alike. *)
Fixpoint independent (table : list (string * string)) : bool :=
  match table with
  | [] => true
  | e :: table' => forallb (λ e', apart e.1 e'.1) table' && independent table'
  end.

(** What the scaffold starts with, up to the preset version *)
Definition xml_head : string :=
  "<?xml version=" +:+ dq +:+ "1.0" +:+ dq +:+ " encoding=" +:+ dq +:+ "UTF-8" +:+ dq +:+ "?>"
  +:+ newline +:+ "            <preset version=" +:+ dq.

(** ** A configuration that uses one name twice *)

Module Duplicate.

Definition raw_first : gmap string Setting :=
  list_to_map [("name", SStr "Plates"); ("publish_type", SStr "Flame Render");
               ("template", SStr "flame_review");
               ("quicktime_template", SStr "");
               ("quicktime_publish_type", SStr "Flame Quicktime");
               ("upload_quicktime", SBool false)].

Definition raw_second : gmap string Setting :=
  list_to_map [("name", SStr "Plates"); ("publish_type", SStr "Flame Render");
               ("template", SStr "flame_shot_render_dpx");
               ("quicktime_template", SStr "");
               ("quicktime_publish_type", SStr "Flame Quicktime");
               ("upload_quicktime", SBool false)].

Definition app : App := {|
  get_template_by_name := get_template_by_name Sample.app;
  get_template := get_template Sample.app;
  shot_parent_entity_type := "Sequence";
  plate_presets := [raw_first; Sample.raw_review; raw_second];
  get_video_preset := get_video_preset Sample.app;
  preset_version := "4"
|}.

Definition handler : ExportPresetHandler := {|
  _handler_app := app;
  _export_presets :=
    <[SStr "Plates" := {| _app := app; _raw_preset := raw_second |}]>
      (<[SStr "Review" := {| _app := app; _raw_preset := Sample.raw_review |}]>
        (<[SStr "Plates" := {| _app := app; _raw_preset := raw_first |}]> ∅))
|}.

End Duplicate.

(** ** A configuration whose settings hook fails *)

Module HookFails.

Definition app : App := {|
  get_template_by_name := get_template_by_name Sample.app;
  get_template := get_template Sample.app;
  shot_parent_entity_type := "Sequence";
  plate_presets := [Sample.raw_dpx];
  get_video_preset name pattern linked := Raise (HostError "no video preset");
  preset_version := "4"
|}.

Definition dpx : ExportPreset := {| _app := app; _raw_preset := Sample.raw_dpx |}.

End HookFails.

(** * Properties *)

(** ** The result monad and dictionary access *)

Lemma bind_Ok {A B} (f : A → Result B) (a : A) : (Ok a ≫= f) = f a.
Proof. reflexivity. Qed.

Lemma bind_Raise {A B} (f : A → Result B) (e : PyExc) : (Raise e ≫= f) = Raise e.
Proof. reflexivity. Qed.

Lemma Ok_inj {A} (a b : A) : Ok a = Ok b → a = b.
Proof. by intros [= ->]. Qed.

Lemma getitem_Some {V} (d : gmap string V) k v : d !! k = Some v → getitem d k = Ok v.
Proof. unfold getitem. by intros ->. Qed.

Lemma getitem_None {V} (d : gmap string V) k :
  d !! k = None → getitem d k = Raise (KeyError k).
Proof. unfold getitem. by intros ->. Qed.

Lemma getitem_Ok_inv {V} (d : gmap string V) k v : getitem d k = Ok v → d !! k = Some v.
Proof. unfold getitem. destruct (d !! k); naive_solver. Qed.

Ltac result_simpl :=
  repeat first
    [ rewrite bind_Ok | rewrite bind_Raise
    | erewrite getitem_Some by eassumption
    | erewrite getitem_None by eassumption ].

(** ** The quicktime template of a preset *)

Lemma get_quicktime_template_empty self :
  _raw_preset self !! "quicktime_template" = Some (SStr "") →
  get_quicktime_template self = Ok None.
Proof. intros Hk. unfold get_quicktime_template. by result_simpl. Qed.

Lemma get_quicktime_template_named self s t :
  _raw_preset self !! "quicktime_template" = Some (SStr s) →
  s ≠ "" →
  get_template_by_name (_app self) (SStr s) = Some t →
  get_quicktime_template self = Ok (Some t).
Proof.
  intros Hk Hs Ht. unfold get_quicktime_template. result_simpl.
  simpl. rewrite bool_decide_eq_false_2 by done. simpl. by rewrite Ht.
Qed.

Lemma get_quicktime_template_unset self v :
  _raw_preset self !! "quicktime_template" = Some v →
  truthy v = false →
  get_quicktime_template self = Ok None.
Proof. intros Hk Hv. unfold get_quicktime_template. result_simpl. by rewrite Hv. Qed.

Lemma get_quicktime_template_absent self :
  _raw_preset self !! "quicktime_template" = None →
  get_quicktime_template self = Raise (KeyError "quicktime_template").
Proof. intros Hk. unfold get_quicktime_template. by result_simpl. Qed.

(** C1, as the claim states it for a record without the key, fails: the
    preset [Sample.keyless] holds no "quicktime_template" entry, and both
    [make_highres_quicktime] and [get_quicktime_template] raise [KeyError]
    instead of answering false and None. *)
Lemma make_highres_quicktime_keyless :
  _raw_preset Sample.keyless !! "quicktime_template" = None ∧
  make_highres_quicktime Sample.keyless = Raise (KeyError "quicktime_template") ∧
  make_highres_quicktime Sample.keyless ≠ Ok false ∧
  get_quicktime_template Sample.keyless = Raise (KeyError "quicktime_template") ∧
  get_quicktime_template Sample.keyless ≠ Ok None.
Proof. vm_compute. repeat split; congruence. Qed.

(** C1 (amended): for a record that holds the "quicktime_template" key,
    [make_highres_quicktime] is true when the value is a non-empty string
    that the template registry resolves, and false when it is the empty
    string (or null), in which case [get_quicktime_template] returns None
    without an error; for a record without the key both operations raise
    [KeyError]. *)
Theorem make_highres_quicktime_spec (self : ExportPreset) :
  (∀ s t, _raw_preset self !! "quicktime_template" = Some (SStr s) →
          s ≠ "" →
          get_template_by_name (_app self) (SStr s) = Some t →
          make_highres_quicktime self = Ok true) ∧
  (∀ v, _raw_preset self !! "quicktime_template" = Some v →
        v = SStr "" ∨ v = SNone →
        make_highres_quicktime self = Ok false ∧
        get_quicktime_template self = Ok None) ∧
  (_raw_preset self !! "quicktime_template" = None →
   make_highres_quicktime self = Raise (KeyError "quicktime_template") ∧
   get_quicktime_template self = Raise (KeyError "quicktime_template")).
Proof.
  unfold make_highres_quicktime. split_and!.
  - intros s t Hk Hs Ht.
    by rewrite (get_quicktime_template_named _ _ _ Hk Hs Ht).
  - intros v Hk Hv.
    assert (truthy v = false) as Hfalse by (by destruct Hv as [-> | ->]).
    by rewrite (get_quicktime_template_unset _ _ Hk Hfalse).
  - intros Hk. by rewrite (get_quicktime_template_absent _ Hk).
Qed.

Lemma make_highres_quicktime_spec_witness :
  make_highres_quicktime Sample.dpx = Ok true ∧
  (make_highres_quicktime Sample.rev = Ok false ∧
   get_quicktime_template Sample.rev = Ok None) ∧
  (make_highres_quicktime Sample.keyless = Raise (KeyError "quicktime_template") ∧
   get_quicktime_template Sample.keyless = Raise (KeyError "quicktime_template")).
Proof.
  refine (conj _ (conj _ _)).
  - eapply (proj1 (make_highres_quicktime_spec Sample.dpx)
              "flame_shot_quicktime" Sample.quicktime);
      [reflexivity | discriminate | reflexivity].
  - apply (proj1 (proj2 (make_highres_quicktime_spec Sample.rev)) (SStr ""));
      [reflexivity | by left].
  - apply (proj2 (proj2 (make_highres_quicktime_spec Sample.keyless))). reflexivity.
Defined.

(** ** The quicktime path of a render path *)

(** C3, as stated, fails for a record without the "quicktime_template"
    key, which has no quicktime template configured either: for the preset
    [Sample.keyless] the checked lookup comes before the test for None, so
    [quicktime_path_from_render_path] raises [KeyError] and not
    [TankError]. *)
Lemma quicktime_path_from_render_path_keyless :
  _raw_preset Sample.keyless !! "quicktime_template" = None ∧
  quicktime_path_from_render_path (R := Sample.repr) Sample.keyless Sample.render_path
    = Raise (KeyError "quicktime_template") ∧
  ∀ msg, quicktime_path_from_render_path (R := Sample.repr)
           Sample.keyless Sample.render_path ≠ Raise (TankError msg).
Proof. split_and!; [reflexivity..|]. intros msg. vm_compute. discriminate. Qed.

(** C3 (amended): for a record that holds the "quicktime_template" key with
    an empty or null value (so that [get_quicktime_template] gives None)
    [quicktime_path_from_render_path] raises [TankError] whatever the path
    is; for a record without the key it raises [KeyError] whatever the path
    is; with a quicktime template, its result is the quicktime template's
    [apply_fields] on the fields the render template's [get_fields]
    extracts from the path. *)
Theorem quicktime_path_from_render_path_spec `{R : ReprDict}
    (self : ExportPreset) (render_path : string) :
  (get_quicktime_template self = Ok None →
   quicktime_path_from_render_path self render_path =
     Raise (TankError (ExportPreset_repr self +:+
       ": Cannot evaluate quicktime path because no quicktime template has been defined."))) ∧
  (∀ v, _raw_preset self !! "quicktime_template" = Some v → truthy v = false →
   ∃ msg, quicktime_path_from_render_path self render_path = Raise (TankError msg)) ∧
  (∀ qt rt, get_quicktime_template self = Ok (Some qt) →
            get_render_template self = Ok (Some rt) →
     quicktime_path_from_render_path self render_path
       = (get_fields rt render_path ≫= apply_fields qt) ∧
     ∀ fields quicktime_path,
       get_fields rt render_path = Ok fields →
       apply_fields qt fields = Ok quicktime_path →
       quicktime_path_from_render_path self render_path = Ok quicktime_path) ∧
  (_raw_preset self !! "quicktime_template" = None →
   quicktime_path_from_render_path self render_path
     = Raise (KeyError "quicktime_template")).
Proof.
  unfold quicktime_path_from_render_path. refine (conj _ (conj _ (conj _ _))).
  - by intros ->.
  - intros v Hk Hv. rewrite (get_quicktime_template_unset _ _ Hk Hv). eauto.
  - intros qt rt -> ->. rewrite !bind_Ok. simpl. split.
    + by destruct (get_fields rt render_path).
    + intros fields quicktime_path -> Ha. by rewrite bind_Ok.
  - intros Hk. by rewrite (get_quicktime_template_absent _ Hk).
Qed.

Lemma quicktime_path_from_render_path_spec_witness :
  (∃ msg, quicktime_path_from_render_path (R := Sample.repr)
            Sample.rev Sample.render_path = Raise (TankError msg)) ∧
  quicktime_path_from_render_path (R := Sample.repr) Sample.dpx Sample.render_path
    = Ok Sample.quicktime_path ∧
  quicktime_path_from_render_path (R := Sample.repr) Sample.keyless Sample.render_path
    = Raise (KeyError "quicktime_template").
Proof.
  refine (conj _ (conj _ _)).
  - apply (proj1 (proj2 (quicktime_path_from_render_path_spec (R := Sample.repr)
             Sample.rev Sample.render_path)) (SStr ""));
      reflexivity.
  - apply (proj2 (proj1 (proj2 (proj2 (quicktime_path_from_render_path_spec
             (R := Sample.repr) Sample.dpx Sample.render_path)))
             Sample.quicktime Sample.plate eq_refl eq_refl) Sample.fields);
      reflexivity.
  - apply (proj2 (proj2 (proj2 (quicktime_path_from_render_path_spec
             (R := Sample.repr) Sample.keyless Sample.render_path)))).
    reflexivity.
Defined.

(** ** Publish names *)

Lemma has_char_app c s1 s2 :
  PyStr.has_char c (s1 +:+ s2) = PyStr.has_char c s1 || PyStr.has_char c s2.
Proof.
  induction s1 as [|a s1 IH]; [done|].
  change (String a s1 +:+ s2) with (String a (s1 +:+ s2)).
  simpl. rewrite IH. by destruct (bool_decide (a = c)).
Qed.

Lemma publish_name_of_not_Unknown fields : publish_name_of fields ≠ "Unknown".
Proof.
  intros Heq. apply (f_equal (PyStr.has_char ","%char)) in Heq.
  unfold publish_name_of in Heq. rewrite !has_char_app in Heq.
  vm_compute (PyStr.has_char _ "Unknown") in Heq.
  vm_compute (PyStr.has_char _ ", ") in Heq.
  rewrite orb_true_r in Heq. discriminate.
Qed.

Lemma get_publish_name_invalid t path :
  validate t path = false → get_publish_name (Some t) path = Ok "Unknown".
Proof. intros Hv. unfold get_publish_name. by rewrite Hv. Qed.

Lemma get_publish_name_valid t path fields :
  validate t path = true →
  get_fields t path = Ok fields →
  get_publish_name (Some t) path = Ok (publish_name_of fields).
Proof. intros Hv Hf. unfold get_publish_name. by rewrite Hv, Hf. Qed.

(** C4: for a preset whose record names a render template, and a host whose
    templates extract fields from every path they validate,
    [get_render_publish_name] never raises; it returns "Unknown" for a path
    the render template does not validate and the Shot field, ", " and the
    segment_name field for a path it validates. *)
Theorem get_render_publish_name_spec (self : ExportPreset) (v : Setting) (path : string) :
  _raw_preset self !! "template" = Some v →
  (∀ t, get_template_by_name (_app self) v = Some t → extracts_validated t) →
  (∃ name, get_render_publish_name self path = Ok name) ∧
  (∀ t, get_template_by_name (_app self) v = Some t →
     (validate t path = false → get_render_publish_name self path = Ok "Unknown") ∧
     (validate t path = true →
        ∃ fields, get_fields t path = Ok fields ∧
          get_render_publish_name self path = Ok (publish_name_of fields) ∧
          ∀ shot segment,
            fields !! "Shot" = Some (FStr shot) →
            fields !! "segment_name" = Some (FStr segment) →
            get_render_publish_name self path = Ok (shot +:+ ", " +:+ segment))).
Proof.
  intros Hk Hhost.
  assert (get_render_publish_name self path
          = get_publish_name (get_template_by_name (_app self) v) path) as ->.
  { unfold get_render_publish_name, get_render_template. by result_simpl. }
  destruct (get_template_by_name (_app self) v) as [t|] eqn:Ht.
  - assert (∀ t', Some t = Some t' →
      (validate t' path = false → get_publish_name (Some t) path = Ok "Unknown") ∧
      (validate t' path = true →
        ∃ fields, get_fields t' path = Ok fields ∧
          get_publish_name (Some t) path = Ok (publish_name_of fields) ∧
          ∀ shot segment,
            fields !! "Shot" = Some (FStr shot) →
            fields !! "segment_name" = Some (FStr segment) →
            get_publish_name (Some t) path = Ok (shot +:+ ", " +:+ segment))) as Hcases.
    { intros t' [= <-]. split.
      - apply get_publish_name_invalid.
      - intros Hv. destruct (Hhost t eq_refl path Hv) as [fields Hf].
        exists fields. rewrite (get_publish_name_valid _ _ _ Hv Hf).
        split_and!; [done..|].
        intros shot segment Hs Hg. unfold publish_name_of. by rewrite Hs, Hg. }
    split; [|done].
    destruct (validate t path) eqn:Hv.
    + destruct (proj2 (Hcases t eq_refl) Hv) as (fields & _ & -> & _). eauto.
    + rewrite (proj1 (Hcases t eq_refl) Hv). eauto.
  - split; [by eexists|]. intros t [=].
Qed.

Lemma sample_plate_extracts : extracts_validated Sample.plate.
Proof.
  intros path Hv. exists Sample.fields. simpl in *.
  by destruct (bool_decide (path = Sample.render_path)).
Qed.

Lemma get_render_publish_name_spec_witness :
  get_render_publish_name Sample.dpx "elsewhere/file.dpx" = Ok "Unknown" ∧
  get_render_publish_name Sample.dpx Sample.render_path = Ok "sh010, bg".
Proof.
  assert (∀ t, get_template_by_name (_app Sample.dpx) (SStr "flame_shot_render_dpx")
               = Some t → extracts_validated t) as Hhost.
  { intros t [= <-]. exact sample_plate_extracts. }
  split.
  - apply (proj1 (proj2 (get_render_publish_name_spec Sample.dpx
             (SStr "flame_shot_render_dpx") "elsewhere/file.dpx" eq_refl Hhost)
             Sample.plate eq_refl)).
    reflexivity.
  - destruct (proj2 (proj2 (get_render_publish_name_spec Sample.dpx
             (SStr "flame_shot_render_dpx") Sample.render_path eq_refl Hhost)
             Sample.plate eq_refl) eq_refl) as (fields & Hf & _ & Hname).
    injection Hf as <-.
    apply (Hname "sh010" "bg"); reflexivity.
Defined.

(** C10: for a path the template validates whose extracted fields lack
    "Shot" or "segment_name", the publish-name operations neither raise nor
    fall back to "Unknown": the missing field is written as str(None), so
    that fields lacking both give "None, None". *)
Theorem publish_name_missing_fields (self : ExportPreset) (t : Template)
    (path : string) (fields : gmap string FieldVal) :
  validate t path = true →
  get_fields t path = Ok fields →
  fields !! "Shot" = None ∨ fields !! "segment_name" = None →
  (get_render_template self = Ok (Some t) →
   get_render_publish_name self path = Ok (publish_name_of fields)) ∧
  (get_quicktime_template self = Ok (Some t) →
   get_quicktime_publish_name self path = Ok (publish_name_of fields)) ∧
  publish_name_of fields ≠ "Unknown" ∧
  (fields !! "Shot" = None →
   publish_name_of fields = "None, " +:+ str_field (fields !! "segment_name")) ∧
  (fields !! "segment_name" = None →
   publish_name_of fields = str_field (fields !! "Shot") +:+ ", None") ∧
  (fields !! "Shot" = None → fields !! "segment_name" = None →
   publish_name_of fields = "None, None").
Proof.
  intros Hv Hf _. split_and!.
  - intros Ht. unfold get_render_publish_name. rewrite Ht, bind_Ok.
    by apply get_publish_name_valid.
  - intros Ht. unfold get_quicktime_publish_name. rewrite Ht, bind_Ok.
    by apply get_publish_name_valid.
  - apply publish_name_of_not_Unknown.
  - intros Hs. unfold publish_name_of. by rewrite Hs.
  - intros Hg. unfold publish_name_of. by rewrite Hg.
  - intros Hs Hg. unfold publish_name_of. by rewrite Hs, Hg.
Qed.

Lemma publish_name_missing_fields_witness :
  get_render_publish_name Sample.rev "review/take3" = Ok "None, None".
Proof.
  pose proof (publish_name_missing_fields Sample.rev Sample.review "review/take3"
                {[ "name" := FStr "take3" ]} eq_refl eq_refl (or_introl eq_refl))
    as (Hrender & _ & _ & _ & _ & Hnone).
  rewrite (Hrender eq_refl), Hnone; reflexivity.
Defined.

(** ** The preset handler *)

Lemma startswith_app p s : PyStr.startswith p (p +:+ s) = true.
Proof.
  induction p as [|a p IH]; [done|].
  change (String a p +:+ s) with (String a (p +:+ s)).
  simpl. by rewrite bool_decide_eq_true_2, IH.
Qed.

Lemma occurs_startswith tok s : PyStr.startswith tok s = true → PyStr.occurs tok s = true.
Proof. intros Hs. destruct s; simpl in *; by rewrite Hs. Qed.

Lemma occurs_app_r tok s1 s2 :
  PyStr.occurs tok s2 = true → PyStr.occurs tok (s1 +:+ s2) = true.
Proof.
  intros Ho. induction s1 as [|a s1 IH]; [done|].
  change (String a s1 +:+ s2) with (String a (s1 +:+ s2)).
  simpl. rewrite IH. apply orb_true_r.
Qed.

Lemma occurs_middle tok s1 s2 : PyStr.occurs tok (s1 +:+ tok +:+ s2) = true.
Proof. apply occurs_app_r, occurs_startswith, startswith_app. Qed.

Lemma elem_of_items self preset_name preset :
  (preset_name, preset) ∈ items self ↔ _export_presets self !! preset_name = Some preset.
Proof. apply elem_of_map_to_list. Qed.

Lemma elem_of_get_preset_names self preset_name :
  preset_name ∈ get_preset_names self ↔ is_Some (_export_presets self !! preset_name).
Proof.
  unfold get_preset_names. rewrite list_elem_of_fmap. split.
  - intros ([k p] & -> & Hin). apply elem_of_items in Hin. by exists p.
  - intros [p Hp]. exists (preset_name, p). split; [done|]. by apply elem_of_items.
Qed.

Lemma elem_of_presets self preset :
  preset ∈ (items self).*2 ↔ ∃ preset_name, _export_presets self !! preset_name = Some preset.
Proof.
  rewrite list_elem_of_fmap. split.
  - intros ([k p] & -> & Hin). apply elem_of_items in Hin. by exists k.
  - intros [k Hk]. exists (k, preset). split; [done|]. by apply elem_of_items.
Qed.

Lemma load_presets_keyed app raw_preset_data :
  ∀ acc export_presets,
    keyed_by_name acc →
    load_presets app raw_preset_data acc = Ok export_presets →
    keyed_by_name export_presets.
Proof.
  induction raw_preset_data as [|raw rest IH]; intros acc m Hacc Hload; simpl in Hload.
  - by injection Hload as <-.
  - destruct (getitem raw "name") as [name|e] eqn:Hname; [|done].
    rewrite bind_Ok in Hload. eapply IH; [|exact Hload].
    intros k p Hkp.
    destruct (decide (name = k)) as [->|Hne].
    + rewrite lookup_insert_eq in Hkp. injection Hkp as <-. exact Hname.
    + rewrite lookup_insert_ne in Hkp by done. by apply Hacc.
Qed.

Lemma init_keyed app self :
  ExportPresetHandler_init app = Ok self → keyed_by_name (_export_presets self).
Proof.
  unfold ExportPresetHandler_init. intros Hinit.
  destruct (load_presets app (plate_presets app) ∅) as [m|e] eqn:Hload; [|done].
  injection Hinit as <-. simpl.
  eapply load_presets_keyed; [|exact Hload].
  intros k p Hkp. by rewrite lookup_empty in Hkp.
Qed.

(** C8: for a handler that [__init__] built, every name that
    [get_preset_names] lists is one [get_preset_by_name] finds, and the
    preset found has that name. *)
Theorem get_preset_by_name_round_trip (app : App) (self : ExportPresetHandler)
    (preset_name : Setting) :
  ExportPresetHandler_init app = Ok self →
  preset_name ∈ get_preset_names self →
  ∃ preset, get_preset_by_name self preset_name = Ok preset ∧
            get_name preset = Ok preset_name.
Proof.
  intros Hinit [preset Hp]%elem_of_get_preset_names.
  exists preset. split.
  - unfold get_preset_by_name. by rewrite Hp.
  - by apply (init_keyed _ _ Hinit).
Qed.

Lemma get_preset_by_name_round_trip_witness :
  ExportPresetHandler_init Sample.app = Ok Sample.handler ∧
  ∃ preset, get_preset_by_name Sample.handler (SStr "Review") = Ok preset ∧
            get_name preset = Ok (SStr "Review").
Proof.
  split; [reflexivity|].
  apply (get_preset_by_name_round_trip Sample.app); [reflexivity|].
  vm_compute. apply list_elem_of_In. right. left. reflexivity.
Defined.

(** C9: [get_preset_by_name] looks the name up exactly: a name that is not
    among the loaded presets raises [TankError] with a message that quotes
    the name, and a loaded name gives the preset stored under it. *)
Theorem get_preset_by_name_spec (self : ExportPresetHandler) (preset_name : Setting) :
  (preset_name ∉ get_preset_names self →
   get_preset_by_name self preset_name = Raise (TankError (not_found_message preset_name)) ∧
   PyStr.occurs (str_setting preset_name) (not_found_message preset_name) = true) ∧
  (∀ preset, (preset_name, preset) ∈ items self ↔
             get_preset_by_name self preset_name = Ok preset).
Proof.
  unfold get_preset_by_name. split.
  - rewrite elem_of_get_preset_names, <-eq_None_not_Some. intros ->.
    split; [done|]. apply occurs_middle.
  - intros preset. rewrite elem_of_items.
    destruct (_export_presets self !! preset_name); naive_solver.
Qed.

Lemma get_preset_by_name_spec_witness :
  get_preset_by_name Sample.handler (SStr "8 bit DPX") =
    Raise (TankError
      "Export preset manager cannot find preset '8 bit DPX' in the configuration!").
Proof.
  refine (proj1 (proj1 (get_preset_by_name_spec Sample.handler (SStr "8 bit DPX")) _)).
  vm_compute. intros Hin%list_elem_of_In. simpl in Hin.
  destruct Hin as [[=]|[[=]|[]]].
Defined.

Lemma accepts_rejects preset path : accepts preset path → rejects preset path → False.
Proof. intros (t & Ht & Hv) (t' & Ht' & Hv'). congruence. Qed.

Lemma first_matching_cons_accept preset rest path :
  accepts preset path → first_matching (preset :: rest) path = Ok (Some preset).
Proof. intros (t & Ht & Hv). simpl. rewrite Ht, bind_Ok. simpl. by rewrite Hv. Qed.

Lemma first_matching_cons_reject preset rest path :
  rejects preset path →
  first_matching (preset :: rest) path = first_matching rest path.
Proof. intros (t & Ht & Hv). simpl. rewrite Ht, bind_Ok. simpl. by rewrite Hv. Qed.

Lemma resolvable_accepts_or_rejects preset path :
  (∃ t, get_render_template preset = Ok (Some t)) →
  accepts preset path ∨ rejects preset path.
Proof.
  intros [t Ht]. unfold accepts, rejects.
  destruct (validate t path) eqn:Hv; eauto.
Qed.

(** The scan returns the first preset of the list that accepts the path. *)
Lemma first_matching_spec presets path :
  (∀ preset, preset ∈ presets → ∃ t, get_render_template preset = Ok (Some t)) →
  (first_matching presets path = Ok None ∧
   ∀ preset, preset ∈ presets → rejects preset path) ∨
  (∃ preset before after,
     first_matching presets path = Ok (Some preset) ∧
     presets = before ++ preset :: after ∧
     accepts preset path ∧
     ∀ earlier, earlier ∈ before → rejects earlier path).
Proof.
  induction presets as [|p rest IH]; intros Hres.
  - left. split; [done|]. intros q Hq. by apply elem_of_nil in Hq.
  - destruct (resolvable_accepts_or_rejects p path) as [Ha|Hr].
    { apply Hres. left. }
    + right. exists p, [], rest. split_and!; [|done..|].
      * by apply first_matching_cons_accept.
      * intros q Hq. by apply elem_of_nil in Hq.
    + rewrite (first_matching_cons_reject _ _ _ Hr).
      destruct IH as [[Hnone Hall]|(q & before & after & Hq & -> & Ha & Hbefore)].
      { intros q Hq. apply Hres. by right. }
      * left. split; [done|].
        intros q [->|Hq]%elem_of_cons; auto.
      * right. exists q, (p :: before), after. split_and!; [done..|].
        intros e [->|He]%elem_of_cons; auto.
Qed.

(** C7: for a handler whose presets all have a render template,
    [get_preset_for_render_path] returns None when no loaded preset accepts
    the path, and otherwise a loaded preset that accepts it: the first one
    in the order the dictionary is walked. *)
Theorem get_preset_for_render_path_spec (self : ExportPresetHandler) (path : string) :
  (∀ preset_name preset, _export_presets self !! preset_name = Some preset →
     ∃ t, get_render_template preset = Ok (Some t)) →
  ((∀ preset_name preset, _export_presets self !! preset_name = Some preset →
      ¬ accepts preset path) →
   get_preset_for_render_path self path = Ok None) ∧
  ((∃ preset_name preset, _export_presets self !! preset_name = Some preset ∧
      accepts preset path) →
   ∃ preset before after,
     get_preset_for_render_path self path = Ok (Some preset) ∧
     (∃ preset_name, _export_presets self !! preset_name = Some preset) ∧
     accepts preset path ∧
     (items self).*2 = before ++ preset :: after ∧
     ∀ earlier, earlier ∈ before → rejects earlier path).
Proof.
  intros Hres. unfold get_preset_for_render_path.
  destruct (first_matching_spec (items self).*2 path)
    as [[Hnone Hall]|(p & before & after & Hp & Hsplit & Ha & Hbefore)].
  { intros p [k Hk]%elem_of_presets. eauto. }
  - split; [done|].
    intros (k & p & Hk & Ha). exfalso.
    apply (accepts_rejects p path Ha), Hall, elem_of_presets. eauto.
  - assert (∃ k, _export_presets self !! k = Some p) as Hloaded.
    { apply elem_of_presets. rewrite Hsplit. apply elem_of_app. right. left. }
    split.
    + intros Hno. exfalso. destruct Hloaded as [k Hk]. by apply (Hno k p).
    + intros _. exists p, before, after. by split_and!.
Qed.

Lemma sample_handler_resolvable preset_name preset :
  _export_presets Sample.handler !! preset_name = Some preset →
  ∃ t, get_render_template preset = Ok (Some t).
Proof.
  simpl. intros Hk.
  destruct (decide (SStr "Review" = preset_name)) as [<-|Hne].
  - rewrite lookup_insert_eq in Hk. injection Hk as <-. by eexists.
  - rewrite lookup_insert_ne in Hk by done.
    destruct (decide (SStr "10 bit DPX" = preset_name)) as [<-|Hne'].
    + rewrite lookup_insert_eq in Hk. injection Hk as <-. by eexists.
    + rewrite lookup_insert_ne in Hk by done. by rewrite lookup_empty in Hk.
Qed.

Lemma get_preset_for_render_path_spec_witness :
  ∃ preset before after,
    get_preset_for_render_path Sample.handler Sample.render_path = Ok (Some preset) ∧
    (∃ preset_name, _export_presets Sample.handler !! preset_name = Some preset) ∧
    accepts preset Sample.render_path ∧
    (items Sample.handler).*2 = before ++ preset :: after ∧
    ∀ earlier, earlier ∈ before → rejects earlier Sample.render_path.
Proof.
  apply (proj2 (get_preset_for_render_path_spec Sample.handler Sample.render_path
                  sample_handler_resolvable)).
  exists (SStr "10 bit DPX"), Sample.dpx. split; [reflexivity|].
  exists Sample.plate. split; reflexivity.
Defined.

(** ** Template translation and padding *)

(** C5: with Sequence as the parent entity type, the plate definition of
    the source's own example translates to the Flame pattern it gives. *)
Theorem resolve_flame_template_plate :
  resolve_flame_template "Sequence"
    "sequences/{Sequence}/{Shot}/editorial/plates/{segment_name}_{Shot}.v{version}.{SEQ}.dpx"
  = "sequences/<name>/<shot name>/editorial/plates/<segment name>_<shot name>.v<version>.<frame><ext>".
Proof. vm_compute. reflexivity. Qed.

Lemma bind_Ok_inv {A B} (m : Result A) (f : A → Result B) b :
  (m ≫= f) = Ok b → ∃ a, m = Ok a ∧ f a = Ok b.
Proof. destruct m as [a|e]; [|done]. rewrite bind_Ok. eauto. Qed.


Lemma padding_key t name key :
  keys t !! name = Some key →
  padding (Some t) name = Ok (PyStr.lstrip "0" (format_spec key)).
Proof. intros Hk. unfold padding. simpl. by result_simpl. Qed.




(** ** Stability of the translation *)

Lemma substitute_table parent d :
  substitute parent d = apply_substitutions (substitutions parent) d.
Proof. reflexivity. Qed.

Lemma append_cons a s1 s2 : String a s1 +:+ s2 = String a (s1 +:+ s2).
Proof. reflexivity. Qed.

Lemma append_nil_r s : s +:+ "" = s.
Proof. induction s as [|a s IH]; [done|]. by rewrite append_cons, IH. Qed.

Lemma take_drop n s : PyStr.take n s +:+ PyStr.drop n s = s.
Proof.
  revert s. induction n as [|n IH]; intros [|a s]; simpl; try done.
  by rewrite append_cons, IH.
Qed.

Lemma drop_nil n : PyStr.drop n "" = "".
Proof. by destruct n. Qed.

Lemma length_drop_le n s : (String.length (PyStr.drop n s) ≤ String.length s)%nat.
Proof.
  revert s. induction n as [|n IH]; intros [|a s]; simpl; try lia.
  specialize (IH s). lia.
Qed.

Section replace.
Context (o : ascii) (old' new : string).

Lemma replace_go_skip s k :
  PyStr.replace_go (String o old') new k s
  = PyStr.replace_go (String o old') new 0 (PyStr.drop k s).
Proof.
  revert k. induction s as [|c s IH]; intros [|k]; try done. simpl. apply IH.
Qed.

Lemma replace_cons_match c s :
  PyStr.startswith (String o old') (String c s) = true →
  PyStr.replace (String o old') new (String c s)
  = new +:+ PyStr.replace (String o old') new (PyStr.drop (String.length old') s).
Proof.
  intros Hs. unfold PyStr.replace.
  cbn [PyStr.replace_go]. rewrite Hs.
  replace (String.length (String o old') - 1)%nat with (String.length old')
    by (simpl; lia).
  by rewrite replace_go_skip.
Qed.

Lemma replace_cons_other c s :
  PyStr.startswith (String o old') (String c s) = false →
  PyStr.replace (String o old') new (String c s)
  = String c (PyStr.replace (String o old') new s).
Proof.
  intros Hs. unfold PyStr.replace.
  cbn [PyStr.replace_go]. by rewrite Hs.
Qed.

(** Nothing to replace: the text is returned as it is. *)
Lemma replace_absent s :
  PyStr.occurs (String o old') s = false → PyStr.replace (String o old') new s = s.
Proof.
  induction s as [|c s IH]; [done|].
  cbn [PyStr.occurs]. intros [Hs Ho]%orb_false_elim.
  by rewrite (replace_cons_other _ _ Hs), IH.
Qed.

End replace.

(** Occurrences *)

Lemma occurs_nil tok : PyStr.occurs tok "" = PyStr.startswith tok "".
Proof. simpl. apply orb_false_r. Qed.

Lemma occurs_cons tok c s :
  PyStr.occurs tok (String c s) = PyStr.startswith tok (String c s) || PyStr.occurs tok s.
Proof. reflexivity. Qed.

Lemma occurs_drop tok n s :
  PyStr.occurs tok s = false → PyStr.occurs tok (PyStr.drop n s) = false.
Proof.
  revert s. induction n as [|n IH]; intros [|c s]; try done.
  rewrite occurs_cons. intros [_ Ho]%orb_false_elim. by apply IH.
Qed.

Lemma startswith_take t n s :
  PyStr.startswith t (PyStr.take n s) = true → PyStr.startswith t s = true.
Proof.
  revert n s. induction t as [|a t IH]; intros n s; [done|].
  destruct n as [|n], s as [|b s]; try done.
  cbn [PyStr.take PyStr.startswith].
  intros [-> Ht]%andb_true_iff. by rewrite (IH _ _ Ht).
Qed.

Lemma occurs_take tok n s :
  PyStr.occurs tok s = false → PyStr.occurs tok (PyStr.take n s) = false.
Proof.
  revert s. induction n as [|n IH]; intros [|c s]; try done.
  - by destruct tok.
  - rewrite occurs_cons. intros [Hs Ho]%orb_false_elim.
    cbn [PyStr.take]. rewrite occurs_cons, (IH _ Ho), orb_false_r.
    apply not_true_is_false. intros Ht.
    apply (startswith_take _ (S n) (String c s)) in Ht. congruence.
Qed.

(** A token starts with an opening brace: it cannot begin inside a text
    without one. *)
Lemma occurs_app_braceless r a s :
  PyStr.has_char "{" a = false →
  PyStr.occurs (String "{" r) (a +:+ s) = PyStr.occurs (String "{" r) s.
Proof.
  intros Ha. induction a as [|c a IH]; [done|].
  simpl in Ha. apply orb_false_elim in Ha as [Hc Ha].
  rewrite append_cons, occurs_cons, IH by done.
  cbn [PyStr.startswith]. rewrite bool_decide_eq_false_2; [done|].
  apply bool_decide_eq_false in Hc. congruence.
Qed.

(** A text without "<" that starts [x +:+ "<..."] starts [x]. *)
Lemma startswith_app_angle t x e :
  PyStr.has_char "<" t = false →
  PyStr.startswith t (x +:+ String "<" e) = PyStr.startswith t x.
Proof.
  revert x. induction t as [|a t IH]; intros x Ht; [by destruct x|].
  simpl in Ht. apply orb_false_elim in Ht as [Ha Ht].
  destruct x as [|b x].
  - change ("" +:+ String "<" e) with (String "<" e).
    cbn [PyStr.startswith]. by rewrite Ha.
  - rewrite append_cons. cbn [PyStr.startswith]. by rewrite IH.
Qed.

Lemma occurs_app_angle r h e :
  PyStr.has_char "<" r = false →
  PyStr.has_char "{" e = false →
  PyStr.occurs (String "{" r) (h +:+ String "<" e) = PyStr.occurs (String "{" r) h.
Proof.
  intros Hr He. induction h as [|c h IH].
  - change ("" +:+ String "<" e) with (String "<" e).
    rewrite <-(append_nil_r (String "<" e)). by apply occurs_app_braceless.
  - rewrite append_cons, !occurs_cons, IH. f_equal.
    apply (startswith_app_angle (String "{" r) (String c h)).
    simpl. by rewrite Hr.
Qed.

Section replace_tokens.
Context (o : ascii) (old' new' : string).
Context (Hnew : PyStr.has_char "{" new' = false).

(** Replacing does not make the text start with something free of "<"
    that it did not start with. *)
Lemma startswith_replace r s :
  PyStr.has_char "<" r = false →
  PyStr.startswith r (PyStr.replace (String o old') (String "<" new') s) = true →
  PyStr.startswith r s = true.
Proof.
  revert r. induction s as [|c s IH]; intros r Hr; [done|].
  destruct (PyStr.startswith (String o old') (String c s)) eqn:Hs.
  - rewrite (replace_cons_match _ _ _ _ _ Hs).
    destruct r as [|a r]; [done|].
    simpl in Hr. apply orb_false_elim in Hr as [Ha Hr].
    rewrite append_cons. cbn [PyStr.startswith]. by rewrite Ha.
  - rewrite (replace_cons_other _ _ _ _ _ Hs).
    destruct r as [|a r]; [done|].
    simpl in Hr. apply orb_false_elim in Hr as [Ha Hr].
    cbn [PyStr.startswith]. intros [-> Ht]%andb_true_iff.
    by rewrite (IH _ Hr Ht).
Qed.

(** A token that does not occur in the text, or is the one replaced,
    does not occur in the result. *)
Lemma occurs_replace r s :
  PyStr.has_char "<" r = false →
  PyStr.occurs (String "{" r) s = false ∨ String "{" r = String o old' →
  PyStr.occurs (String "{" r) (PyStr.replace (String o old') (String "<" new') s)
  = false.
Proof.
  intros Hr. remember (String.length s) as n eqn:Hn.
  revert s Hn. induction (lt_wf n) as [n _ IH]. intros [|c s] -> Hs; [done|].
  destruct (PyStr.startswith (String o old') (String c s)) eqn:Hold.
  - rewrite (replace_cons_match _ _ _ _ _ Hold).
    rewrite occurs_app_braceless by (simpl; by rewrite Hnew).
    eapply IH; [|done|].
    + pose proof (length_drop_le (String.length old') s). simpl. lia.
    + destruct Hs as [Hs|Hs]; [left|by right].
      apply occurs_drop. rewrite occurs_cons in Hs.
      by apply orb_false_elim in Hs as [_ Hs].
  - rewrite (replace_cons_other _ _ _ _ _ Hold), occurs_cons.
    apply orb_false_intro.
    + apply not_true_is_false. cbn [PyStr.startswith].
      intros [Hc Ht]%andb_true_iff.
      apply (startswith_replace _ _ Hr) in Ht.
      assert (PyStr.startswith (String "{" r) (String c s) = true) as Htok.
      { cbn [PyStr.startswith]. by rewrite Hc, Ht. }
      destruct Hs as [Hs|Hs].
      * rewrite occurs_cons, Htok in Hs. done.
      * rewrite Hs in Htok. congruence.
    + eapply IH; [|done|].
      * simpl. lia.
      * destruct Hs as [Hs|Hs]; [left|by right].
        rewrite occurs_cons in Hs. by apply orb_false_elim in Hs as [_ Hs].
Qed.

End replace_tokens.

(** The substitution table *)

Lemma is_token_inv old :
  is_token old = true → ∃ r, old = String "{" r ∧ PyStr.has_char "<" r = false.
Proof.
  destruct old as [|c r]; [done|]. unfold is_token.
  destruct (decide (c = "{"%char)) as [->|Hc].
  - intros Hr%negb_true_iff. eauto.
  - by destruct c as [[] [] [] [] [] [] [] []].
Qed.

Lemma is_placeholder_inv new :
  is_placeholder new = true → ∃ n, new = String "<" n ∧ PyStr.has_char "{" n = false.
Proof.
  destruct new as [|c n]; [done|]. unfold is_placeholder.
  destruct (decide (c = "<"%char)) as [->|Hc].
  - intros Hn%negb_true_iff. eauto.
  - by destruct c as [[] [] [] [] [] [] [] []].
Qed.

Lemma well_formed_entry_inv old new :
  well_formed_entry (old, new) = true →
  ∃ r n, old = String "{" r ∧ PyStr.has_char "<" r = false ∧
         new = String "<" n ∧ PyStr.has_char "{" n = false.
Proof.
  unfold well_formed_entry. cbn [fst snd].
  intros [(r & -> & Hr)%is_token_inv (n & -> & Hn)%is_placeholder_inv]%andb_true_iff.
  eauto 10.
Qed.

Lemma apply_substitutions_cons old new table t :
  apply_substitutions ((old, new) :: table) t
  = apply_substitutions table (PyStr.replace old new t).
Proof. reflexivity. Qed.

(** After the table has been applied, none of its tokens is left, nor any
    token that was absent before. *)
Lemma apply_substitutions_absent table :
  ∀ absent t,
    forallb well_formed_entry table = true →
    (∀ tok, tok ∈ absent → is_token tok = true ∧ PyStr.occurs tok t = false) →
    ∀ tok, tok ∈ absent ++ table.*1 →
           PyStr.occurs tok (apply_substitutions table t) = false.
Proof.
  induction table as [|[old new] table IH]; intros absent t Hwf Habs tok Htok.
  - rewrite app_nil_r in Htok. by apply Habs.
  - cbn [forallb] in Hwf. apply andb_true_iff in Hwf as [Hentry Hwf].
    destruct (well_formed_entry_inv _ _ Hentry) as (r & n & -> & Hr & -> & Hn).
    rewrite apply_substitutions_cons.
    apply (IH (absent ++ [String "{" r])); [done| |].
    + intros tok' [Hin| ->%list_elem_of_singleton]%elem_of_app.
      * destruct (Habs _ Hin) as [Htok' Hocc]. split; [done|].
        destruct (is_token_inv _ Htok') as (r' & -> & Hr').
        apply occurs_replace; auto.
      * split; [simpl; by rewrite Hr|]. apply occurs_replace; auto.
    + by rewrite <-app_assoc.
Qed.

Lemma apply_substitutions_id table t :
  forallb well_formed_entry table = true →
  (∀ tok, tok ∈ table.*1 → PyStr.occurs tok t = false) →
  apply_substitutions table t = t.
Proof.
  induction table as [|[old new] table IH]; intros Hwf Habs; [done|].
  cbn [forallb] in Hwf. apply andb_true_iff in Hwf as [Hentry Hwf].
  destruct (well_formed_entry_inv _ _ Hentry) as (r & n & -> & Hr & -> & Hn).
  rewrite apply_substitutions_cons, replace_absent.
  - apply IH; [done|]. intros tok Htok. apply Habs. by right.
  - apply Habs. left.
Qed.

Lemma substitutions_well_formed parent :
  PyStr.has_char "<" parent = false →
  forallb well_formed_entry (substitutions parent) = true.
Proof.
  intros Hp. cbn [forallb substitutions].
  assert (well_formed_entry (parent_token parent, "<name>") = true) as ->; [|done].
  unfold well_formed_entry, parent_token. cbn [fst snd]. apply andb_true_intro. split; [|done].
  change ("{" +:+ parent +:+ "}") with (String "{" (parent +:+ "}")).
  cbn [is_token]. by rewrite has_char_app, Hp.
Qed.

Lemma tokens_of_table table tok :
  forallb well_formed_entry table = true → tok ∈ table.*1 → is_token tok = true.
Proof.
  intros Hwf ([old new] & -> & Hin)%list_elem_of_fmap.
  rewrite forallb_forall in Hwf. apply list_elem_of_In, Hwf in Hin.
  by apply andb_true_iff in Hin as [? _].
Qed.

Lemma substitute_absent parent d tok :
  PyStr.has_char "<" parent = false →
  tok ∈ (substitutions parent).*1 →
  PyStr.occurs tok (substitute parent d) = false.
Proof.
  intros Hp Htok. rewrite substitute_table.
  apply (apply_substitutions_absent _ []); [by apply substitutions_well_formed| |done].
  intros ? []%elem_of_nil.
Qed.

Lemma substitute_fixed parent t :
  PyStr.has_char "<" parent = false →
  (∀ tok, tok ∈ (substitutions parent).*1 → PyStr.occurs tok t = false) →
  substitute parent t = t.
Proof.
  intros Hp Habs. rewrite substitute_table.
  by apply apply_substitutions_id; [apply substitutions_well_formed|].
Qed.

(** splitext *)

Lemma rfind_go_spec c s :
  ∀ i last,
    PyStr.rfind_go c s i last = last ∨
    (i ≤ PyStr.rfind_go c s i last ∧
     String.get (Z.to_nat (PyStr.rfind_go c s i last - i)) s = Some c).
Proof.
  induction s as [|a s IH]; intros i last; [by left|].
  cbn [PyStr.rfind_go].
  destruct (IH (i + 1) (if bool_decide (a = c) then i else last)) as [Heq|[Hle Hget]].
  - rewrite Heq. case_bool_decide as Hc; [|by left].
    right. split; [lia|]. rewrite Z.sub_diag. simpl. by rewrite Hc.
  - right. split; [lia|].
    replace (Z.to_nat (PyStr.rfind_go c s (i + 1)
               (if bool_decide (a = c) then i else last) - i))
      with (S (Z.to_nat (PyStr.rfind_go c s (i + 1)
               (if bool_decide (a = c) then i else last) - (i + 1)))) by lia.
    exact Hget.
Qed.

Lemma rfind_spec c s :
  PyStr.rfind c s = -1 ∨
  (0 ≤ PyStr.rfind c s ∧ String.get (Z.to_nat (PyStr.rfind c s)) s = Some c).
Proof.
  unfold PyStr.rfind. destruct (rfind_go_spec c s 0 (-1)) as [?|[? Hget]]; [by left|].
  right. by rewrite Z.sub_0_r in Hget.
Qed.

Lemma get_drop k s c :
  String.get k s = Some c → ∃ rest, PyStr.drop k s = String c rest.
Proof.
  revert s. induction k as [|k IH]; intros [|a s]; simpl; try done.
  - intros [= ->]. eauto.
  - apply IH.
Qed.

Lemma take_all s : PyStr.take (String.length s) s = s.
Proof. induction s as [|a s IH]; [done|]. simpl. by rewrite IH. Qed.

Lemma drop_all s : PyStr.drop (String.length s) s = "".
Proof. by induction s. Qed.

Lemma splitext_loop_Some p filenameIndex n dotIndex r :
  PosixPath.splitext_loop p filenameIndex n dotIndex = Some r →
  r = (PyStr.take dotIndex p, PyStr.drop dotIndex p).
Proof.
  revert filenameIndex. induction n as [|n IH]; intros f; [done|].
  simpl. case_bool_decide; [apply IH|congruence].
Qed.

(** [splitext] cuts the path in two, and the second part is empty or
    starts with a dot. *)
Lemma splitext_cut p :
  ∃ n, PosixPath.splitext p = (PyStr.take n p, PyStr.drop n p) ∧
       (PyStr.drop n p = "" ∨ ∃ rest, PyStr.drop n p = String "." rest).
Proof.
  assert (∃ n, (p, "") = (PyStr.take n p, PyStr.drop n p) ∧
               (PyStr.drop n p = "" ∨ ∃ rest, PyStr.drop n p = String "." rest)) as Hwhole.
  { exists (String.length p). rewrite take_all, drop_all. auto. }
  unfold PosixPath.splitext. case_bool_decide as Hlt; [|done].
  destruct (PosixPath.splitext_loop _ _ _ _) as [r|] eqn:Hloop; [|done].
  apply splitext_loop_Some in Hloop as ->.
  eexists. split; [done|]. right.
  destruct (rfind_spec "." p) as [Hdot|[_ Hget]]; [|by eapply get_drop].
  destruct (rfind_spec "/" p) as [Hsep|[Hsep _]]; lia.
Qed.

Lemma carry_ext_cut p :
  ∃ n, carry_ext p = PyStr.take n p +:+ "<ext>" ∧
       (PyStr.drop n p = "" ∨ ∃ rest, PyStr.drop n p = String "." rest).
Proof.
  destruct (splitext_cut p) as (n & Hsplit & Hext).
  exists n. unfold carry_ext. by rewrite Hsplit.
Qed.

(** The extension step never returns its argument. *)
Lemma carry_ext_changes p : carry_ext p ≠ p.
Proof.
  destruct (carry_ext_cut p) as (n & -> & Hext).
  rewrite <-(take_drop n p) at 2. intros Heq%(inj (String.app _)).
  destruct Hext as [Hext|[rest Hext]]; rewrite Hext in Heq; discriminate.
Qed.

(** C2, as stated, fails on the source's own example: translating the
    translated plate definition again cuts ".<frame><ext>" off as if it were
    the extension, so the second output differs from the first. *)
Lemma resolve_flame_template_twice_plate :
  resolve_flame_template "Sequence"
    (resolve_flame_template "Sequence"
       "sequences/{Sequence}/{Shot}/editorial/plates/{segment_name}_{Shot}.v{version}.{SEQ}.dpx")
  = "sequences/<name>/<shot name>/editorial/plates/<segment name>_<shot name>.v<version><ext>" ∧
  resolve_flame_template "Sequence"
    (resolve_flame_template "Sequence"
       "sequences/{Sequence}/{Shot}/editorial/plates/{segment_name}_{Shot}.v{version}.{SEQ}.dpx")
  ≠ resolve_flame_template "Sequence"
      "sequences/{Sequence}/{Shot}/editorial/plates/{segment_name}_{Shot}.v{version}.{SEQ}.dpx".
Proof. split; [vm_compute; reflexivity|]. vm_compute. discriminate. Qed.

(** A parent entity name with "<" in it can make even the substitutions
    unstable: the first pass builds a token that the second one replaces. *)
Example substitute_angle_parent :
  substitute "<name>" "{{<name>}}" = "{<name>}" ∧
  substitute "<name>" "{<name>}" = "<name>".
Proof. split; vm_compute; reflexivity. Qed.

(** C2 (amended): the translation is a function of the definition string
    and the parent entity name. For a parent entity name without "<", its
    token substitutions are stable: applied to their own output they change
    nothing. The whole translation is not: on its own output it only runs
    the extension step again, and that step always changes the text. *)
Theorem resolve_flame_template_twice (parent d : string) :
  PyStr.has_char "<" parent = false →
  substitute parent (substitute parent d) = substitute parent d ∧
  resolve_flame_template parent (resolve_flame_template parent d)
    = carry_ext (resolve_flame_template parent d) ∧
  resolve_flame_template parent (resolve_flame_template parent d)
    ≠ resolve_flame_template parent d.
Proof.
  intros Hp.
  assert (substitute parent (resolve_flame_template parent d)
          = resolve_flame_template parent d) as Hfixed.
  { apply substitute_fixed; [done|]. intros tok Htok.
    pose proof (tokens_of_table _ _ (substitutions_well_formed _ Hp) Htok) as Htoken.
    destruct (is_token_inv _ Htoken) as (r & -> & Hr).
    unfold resolve_flame_template.
    destruct (carry_ext_cut (substitute parent d)) as (n & -> & _).
    rewrite (occurs_app_angle r _ "ext>") by done.
    by apply occurs_take, substitute_absent. }
  split_and!.
  - apply substitute_fixed; [done|]. intros tok Htok. by apply substitute_absent.
  - unfold resolve_flame_template at 1. by rewrite Hfixed.
  - unfold resolve_flame_template at 1. rewrite Hfixed. apply carry_ext_changes.
Qed.

Lemma resolve_flame_template_twice_witness :
  substitute "Sequence" (substitute "Sequence" "shots/{Sequence}/{Shot}.v{version}.dpx")
    = substitute "Sequence" "shots/{Sequence}/{Shot}.v{version}.dpx" ∧
  resolve_flame_template "Sequence"
      (resolve_flame_template "Sequence" "shots/{Sequence}/{Shot}.v{version}.dpx")
    = carry_ext (resolve_flame_template "Sequence" "shots/{Sequence}/{Shot}.v{version}.dpx") ∧
  resolve_flame_template "Sequence"
      (resolve_flame_template "Sequence" "shots/{Sequence}/{Shot}.v{version}.dpx")
    ≠ resolve_flame_template "Sequence" "shots/{Sequence}/{Shot}.v{version}.dpx".
Proof.
  apply (resolve_flame_template_twice "Sequence" "shots/{Sequence}/{Shot}.v{version}.dpx").
  reflexivity.
Defined.

(** ** Escaping for the xml *)

Lemma has_char_drop c n s :
  PyStr.has_char c s = false → PyStr.has_char c (PyStr.drop n s) = false.
Proof.
  revert s. induction n as [|n IH]; intros [|a s]; try done.
  simpl. intros [_ Hs]%orb_false_elim. by apply IH.
Qed.

(** Replacing by a text without [c] does not bring [c] into a text. *)
Lemma has_char_replace c o old' new s :
  PyStr.has_char c s = false →
  PyStr.has_char c new = false →
  PyStr.has_char c (PyStr.replace (String o old') new s) = false.
Proof.
  intros Hs Hnew. remember (String.length s) as n eqn:Hn.
  revert s Hn Hs. induction (lt_wf n) as [n _ IH]. intros [|a s] -> Hs; [done|].
  destruct (PyStr.startswith (String o old') (String a s)) eqn:Hold.
  - rewrite (replace_cons_match _ _ _ _ _ Hold), has_char_app, Hnew. simpl.
    eapply IH; [|done|].
    + pose proof (length_drop_le (String.length old') s). simpl. lia.
    + apply has_char_drop. simpl in Hs. by apply orb_false_elim in Hs as [_ Hs].
  - rewrite (replace_cons_other _ _ _ _ _ Hold).
    simpl in Hs. apply orb_false_elim in Hs as [Ha Hs].
    simpl. rewrite Ha. simpl. eapply IH; [|done..]. simpl. lia.
Qed.

(** [s.replace(a, new)] for a single character [a], one character at a time *)
Lemma replace_char_cons a new c s :
  PyStr.replace (String a "") new (String c s)
  = (if bool_decide (a = c) then new else String c "")
    +:+ PyStr.replace (String a "") new s.
Proof.
  case_bool_decide as Hc.
  - subst c. rewrite replace_cons_match; [done|].
    simpl. by rewrite bool_decide_eq_true_2.
  - rewrite replace_cons_other; [done|].
    simpl. by rewrite bool_decide_eq_false_2.
Qed.

Lemma replace_char_app a new s1 s2 :
  PyStr.replace (String a "") new (s1 +:+ s2)
  = PyStr.replace (String a "") new s1 +:+ PyStr.replace (String a "") new s2.
Proof.
  induction s1 as [|c s1 IH]; [done|].
  rewrite append_cons, !replace_char_cons, IH.
  case_bool_decide; [|done].
  generalize (PyStr.replace (String a "") new s1).
  generalize (PyStr.replace (String a "") new s2). clear.
  intros x y. induction new as [|b new IH]; [done|]. by rewrite !append_cons, IH.
Qed.

(** Replacing every [a] by a text without [a] leaves no [a]. *)
Lemma has_char_replace_char a new s :
  PyStr.has_char a new = false →
  PyStr.has_char a (PyStr.replace (String a "") new s) = false.
Proof.
  intros Hnew. induction s as [|c s IH]; [done|].
  rewrite replace_char_cons, has_char_app, IH, orb_false_r.
  case_bool_decide as Hc; [done|].
  simpl. rewrite bool_decide_eq_false_2 by congruence. done.
Qed.

Lemma cgi_escape_app s1 s2 :
  cgi_escape (s1 +:+ s2) = cgi_escape s1 +:+ cgi_escape s2.
Proof. unfold cgi_escape. by rewrite !replace_char_app. Qed.

Lemma cgi_escape_lt s : PyStr.has_char "<" (cgi_escape s) = false.
Proof.
  unfold cgi_escape. apply has_char_replace; [|done].
  by apply has_char_replace_char.
Qed.

Lemma cgi_escape_gt s : PyStr.has_char ">" (cgi_escape s) = false.
Proof. unfold cgi_escape. by apply has_char_replace_char. Qed.

Lemma cgi_escape_cons c s : cgi_escape (String c s) = cgi_escape (String c "") +:+ cgi_escape s.
Proof. apply (cgi_escape_app (String c "") s). Qed.

Lemma cgi_escape_plain_char c :
  c ≠ "&"%char → c ≠ "<"%char → c ≠ ">"%char → cgi_escape (String c "") = String c "".
Proof.
  intros Ha Hl Hg. unfold cgi_escape.
  rewrite (replace_char_cons "&"), bool_decide_eq_false_2 by congruence.
  change (String c "" +:+ PyStr.replace "&" "&amp;" "") with (String c "").
  rewrite (replace_char_cons "<"), bool_decide_eq_false_2 by congruence.
  change (String c "" +:+ PyStr.replace "<" "&lt;" "") with (String c "").
  rewrite (replace_char_cons ">"), bool_decide_eq_false_2 by congruence.
  done.
Qed.

(** X1: whatever the text, its escaped form holds neither "<" nor ">", so
    that a translated pattern cannot open or close a tag of the preset. *)
Theorem cgi_escape_no_markup (s : string) :
  PyStr.has_char "<" (cgi_escape s) = false ∧
  PyStr.has_char ">" (cgi_escape s) = false.
Proof. split; [apply cgi_escape_lt | apply cgi_escape_gt]. Qed.

(** X2: [cgi.escape] works one character at a time: "&" becomes "&amp;",
    "<" becomes "&lt;", ">" becomes "&gt;" (and not "&amp;lt;" or the like:
    the ampersand is replaced first), every other character stays. *)
Theorem cgi_escape_chars (c : ascii) (s : string) :
  cgi_escape "" = "" ∧
  cgi_escape (String "&" s) = "&amp;" +:+ cgi_escape s ∧
  cgi_escape (String "<" s) = "&lt;" +:+ cgi_escape s ∧
  cgi_escape (String ">" s) = "&gt;" +:+ cgi_escape s ∧
  (c ≠ "&"%char → c ≠ "<"%char → c ≠ ">"%char →
   cgi_escape (String c s) = String c (cgi_escape s)).
Proof.
  split_and!; [done|by rewrite cgi_escape_cons..|].
  intros Ha Hl Hg. by rewrite cgi_escape_cons, cgi_escape_plain_char.
Qed.

Lemma cgi_escape_chars_witness :
  cgi_escape "a<b" = "a&lt;b".
Proof.
  rewrite (proj2 (proj2 (proj2 (proj2 (cgi_escape_chars "a" "<b"))))) by discriminate.
  rewrite (proj1 (proj2 (proj2 (cgi_escape_chars "a" "b")))).
  reflexivity.
Defined.

(** X3: escaping a concatenation gives the concatenation of the escaped
    parts, so that a pattern can be escaped piece by piece. *)
Theorem cgi_escape_concat (s1 s2 : string) :
  cgi_escape (s1 +:+ s2) = cgi_escape s1 +:+ cgi_escape s2.
Proof. apply cgi_escape_app. Qed.

(** ** The extension step *)

Lemma drop_drop n m s : PyStr.drop m (PyStr.drop n s) = PyStr.drop (n + m) s.
Proof.
  revert s. induction n as [|n IH]; intros s; [done|].
  destruct s as [|a s]; [by rewrite !drop_nil|]. apply IH.
Qed.

Lemma rfind_go_absent c s :
  ∀ i last, PyStr.has_char c s = false → PyStr.rfind_go c s i last = last.
Proof.
  induction s as [|a s IH]; intros i last; [done|].
  simpl. intros [Ha Hs]%orb_false_elim. by rewrite Ha, IH.
Qed.

(** Behind the index that [rfind] gives there is no further [c]. *)
Lemma rfind_go_after c s :
  ∀ i last, last < i →
    PyStr.has_char c (PyStr.drop (Z.to_nat (PyStr.rfind_go c s i last - i + 1)) s) = false.
Proof.
  induction s as [|a s IH]; intros i last Hlast; [by rewrite drop_nil|].
  cbn [PyStr.rfind_go].
  set (last' := if bool_decide (a = c) then i else last).
  assert (last' < i + 1) as Hlast' by (unfold last'; case_bool_decide; lia).
  specialize (IH (i + 1) last' Hlast').
  destruct (rfind_go_spec c s (i + 1) last') as [Heq|[Hle _]].
  - rewrite Heq in *. unfold last' in *. case_bool_decide as Hc.
    + replace (Z.to_nat (i - i + 1)) with 1%nat by lia.
      replace (Z.to_nat (i - (i + 1) + 1)) with 0%nat in IH by lia. exact IH.
    + replace (Z.to_nat (last - i + 1)) with 0%nat by lia.
      replace (Z.to_nat (last - (i + 1) + 1)) with 0%nat in IH by lia.
      simpl in IH. simpl. by rewrite bool_decide_eq_false_2, IH.
  - replace (Z.to_nat (PyStr.rfind_go c s (i + 1) last' - i + 1))
      with (S (Z.to_nat (PyStr.rfind_go c s (i + 1) last' - (i + 1) + 1))) by lia.
    exact IH.
Qed.

Lemma rfind_after c s :
  PyStr.has_char c (PyStr.drop (Z.to_nat (PyStr.rfind c s + 1)) s) = false.
Proof.
  pose proof (rfind_go_after c s 0 (-1) ltac:(lia)) as H.
  by rewrite Z.sub_0_r in H.
Qed.

Lemma rfind_ge c s : -1 ≤ PyStr.rfind c s.
Proof. destruct (rfind_spec c s) as [->|[? _]]; lia. Qed.

(** What [splitext] cuts off is empty, or a dot and a text that holds
    neither a dot nor a slash. *)
Lemma splitext_ext p :
  ∃ n, PosixPath.splitext p = (PyStr.take n p, PyStr.drop n p) ∧
       (PyStr.drop n p = "" ∨
        ∃ rest, PyStr.drop n p = String "." rest ∧
                PyStr.has_char "." rest = false ∧
                PyStr.has_char "/" rest = false).
Proof.
  assert (∃ n, (p, "") = (PyStr.take n p, PyStr.drop n p) ∧
               (PyStr.drop n p = "" ∨
                ∃ rest, PyStr.drop n p = String "." rest ∧
                        PyStr.has_char "." rest = false ∧
                        PyStr.has_char "/" rest = false)) as Hwhole.
  { exists (String.length p). rewrite take_all, drop_all. auto. }
  unfold PosixPath.splitext. case_bool_decide as Hlt; [|done].
  destruct (PosixPath.splitext_loop _ _ _ _) as [r|] eqn:Hloop; [|done].
  apply splitext_loop_Some in Hloop as ->.
  eexists. split; [done|]. right.
  pose proof (rfind_ge "/" p) as Hsep.
  destruct (rfind_spec "." p) as [Hdot|[Hdot Hget]]; [lia|].
  pose proof (rfind_after "." p) as Hnodot.
  pose proof (rfind_after "/" p) as Hnosep.
  set (d := PyStr.rfind "." p) in *. set (q := PyStr.rfind "/" p) in *.
  replace (Z.to_nat (d + 1)) with (Z.to_nat d + 1)%nat in Hnodot by lia.
  rewrite <-drop_drop in Hnodot.
  apply (has_char_drop _ (Z.to_nat (d - q))) in Hnosep.
  rewrite drop_drop in Hnosep.
  replace (Z.to_nat (q + 1) + Z.to_nat (d - q))%nat
    with (Z.to_nat d + 1)%nat in Hnosep by lia.
  rewrite <-drop_drop in Hnosep.
  destruct (get_drop _ _ _ Hget) as [rest Hrest].
  rewrite Hrest in Hnodot, Hnosep. exists rest. simpl in Hnodot, Hnosep. done.
Qed.

Lemma splitext_no_dot p :
  PyStr.has_char "." p = false → PosixPath.splitext p = (p, "").
Proof.
  intros Hp.
  assert (PyStr.rfind "." p = -1) as Hdot by by apply rfind_go_absent.
  unfold PosixPath.splitext. rewrite Hdot.
  pose proof (rfind_ge "/" p). by rewrite bool_decide_eq_false_2 by lia.
Qed.

Lemma has_char_apply_substitutions c table :
  ∀ t, forallb (λ e, negb (bool_decide (e.1 = "")) && negb (PyStr.has_char c e.2)) table = true →
       PyStr.has_char c t = false →
       PyStr.has_char c (apply_substitutions table t) = false.
Proof.
  induction table as [|[old new] table IH]; intros t Htable Ht; [done|].
  cbn [forallb fst snd] in Htable.
  apply andb_true_iff in Htable as [[Hold Hnew%negb_true_iff]%andb_true_iff Htable].
  rewrite apply_substitutions_cons. apply IH; [done|].
  destruct old as [|o old']; [done|]. by apply has_char_replace.
Qed.

Lemma has_char_substitute c parent d :
  forallb (λ e, negb (PyStr.has_char c e.2)) (substitutions parent) = true →
  PyStr.has_char c d = false →
  PyStr.has_char c (substitute parent d) = false.
Proof.
  intros Hnew Hd. rewrite substitute_table.
  apply has_char_apply_substitutions; [|done].
  rewrite forallb_forall in Hnew. apply forallb_forall. intros e He.
  rewrite (Hnew _ He), andb_true_r. apply negb_true_iff, bool_decide_eq_false.
  unfold substitutions in He. simpl in He.
  destruct He as [<-|He]; [done|].
  repeat (destruct He as [<-|He]; [done|]). done.
Qed.

(** X4: a translated template is the substituted definition with its
    extension cut off and "<ext>" put in its place; the extension is what
    follows the last dot of the last path component, so the cut text holds
    no "/" and no second dot, and nothing is cut when there is none. *)
Theorem resolve_flame_template_ext (parent d : string) :
  ∃ head ext,
    substitute parent d = head +:+ ext ∧
    resolve_flame_template parent d = head +:+ "<ext>" ∧
    (ext = "" ∨
     ∃ rest, ext = String "." rest ∧
             PyStr.has_char "." rest = false ∧
             PyStr.has_char "/" rest = false).
Proof.
  destruct (splitext_ext (substitute parent d)) as (n & Hsplit & Hext).
  exists (PyStr.take n (substitute parent d)), (PyStr.drop n (substitute parent d)).
  split_and!; [by rewrite take_drop| |done].
  unfold resolve_flame_template, carry_ext. by rewrite Hsplit.
Qed.

(** X5: a definition without any dot has no extension to cut: its
    translation is the substituted definition followed by "<ext>". *)
Theorem resolve_flame_template_no_dot (parent d : string) :
  PyStr.has_char "." d = false →
  resolve_flame_template parent d = substitute parent d +:+ "<ext>".
Proof.
  intros Hd. unfold resolve_flame_template, carry_ext.
  rewrite splitext_no_dot; [done|].
  by apply has_char_substitute.
Qed.

Lemma resolve_flame_template_no_dot_witness :
  resolve_flame_template "Sequence" "shots/{Sequence}/{Shot}/notes"
  = "shots/<name>/<shot name>/notes<ext>".
Proof.
  rewrite (resolve_flame_template_no_dot "Sequence" "shots/{Sequence}/{Shot}/notes")
    by reflexivity.
  reflexivity.
Defined.

(** ** The translation, token by token *)

Lemma substitutions_cons parent :
  substitutions parent = (parent_token parent, "<name>") :: fixed_substitutions.
Proof. reflexivity. Qed.

Lemma drop_app_length s1 s2 : PyStr.drop (String.length s1) (s1 +:+ s2) = s2.
Proof. induction s1 as [|a s1 IH]; [done|]. by rewrite append_cons. Qed.

Lemma append_assoc s1 s2 s3 : (s1 +:+ s2) +:+ s3 = s1 +:+ s2 +:+ s3.
Proof. induction s1 as [|a s1 IH]; [done|]. by rewrite !append_cons, IH. Qed.

(** A text in which the first character of [old] does not occur is copied. *)
Lemma replace_app_skip o old' new pre s :
  PyStr.has_char o pre = false →
  PyStr.replace (String o old') new (pre +:+ s)
  = pre +:+ PyStr.replace (String o old') new s.
Proof.
  intros Hpre. induction pre as [|c pre IH]; [done|].
  simpl in Hpre. apply orb_false_elim in Hpre as [Hc Hpre].
  rewrite !append_cons, replace_cons_other, IH; [done..|].
  cbn [PyStr.startswith]. rewrite bool_decide_eq_false_2; [done|].
  apply bool_decide_eq_false in Hc. congruence.
Qed.

Lemma replace_app_match o old' new s :
  PyStr.replace (String o old') new (String o old' +:+ s)
  = new +:+ PyStr.replace (String o old') new s.
Proof.
  rewrite append_cons, replace_cons_match.
  - by rewrite drop_app_length.
  - rewrite <-append_cons. apply startswith_app.
Qed.

(** A text that starts [b +:+ s] starts with [a] only if one of [a] and
    [b] starts with the other. *)
Lemma startswith_app_cases a b s :
  PyStr.startswith a (b +:+ s) = true →
  PyStr.startswith a b = true ∨ PyStr.startswith b a = true.
Proof.
  revert b. induction a as [|x a IH]; intros b; [by left|].
  destruct b as [|y b]; [by right|].
  rewrite append_cons. cbn [PyStr.startswith].
  intros [Hxy Ha]%andb_true_iff. rewrite Hxy.
  apply bool_decide_eq_true in Hxy as ->. rewrite bool_decide_eq_true_2 by done.
  simpl. by apply IH.
Qed.

Lemma startswith_app_apart a b s :
  apart a b = true → PyStr.startswith a (b +:+ s) = false.
Proof.
  unfold apart. intros [Hab%negb_true_iff Hba%negb_true_iff]%andb_true_iff.
  apply not_true_is_false. intros [?|?]%startswith_app_cases; congruence.
Qed.

(** A token that [old] does not begin like is copied. *)
Lemma replace_app_token old' new r s :
  PyStr.has_char "{" r = false →
  apart (String "{" old') (String "{" r) = true →
  PyStr.replace (String "{" old') new (String "{" r +:+ s)
  = String "{" r +:+ PyStr.replace (String "{" old') new s.
Proof.
  intros Hr Hapart. rewrite append_cons, replace_cons_other.
  - by rewrite replace_app_skip.
  - rewrite <-append_cons. by apply startswith_app_apart.
Qed.

Lemma plain_entry_inv old new :
  plain_entry (old, new) = true →
  ∃ r, old = String "{" r ∧ PyStr.has_char "{" r = false ∧
       PyStr.has_char "{" new = false.
Proof.
  unfold plain_entry. cbn [fst snd]. intros [Hold Hnew%negb_true_iff]%andb_true_iff.
  destruct old as [|c r]; [done|].
  destruct (decide (c = "{"%char)) as [->|Hc].
  - apply negb_true_iff in Hold. eauto.
  - by destruct c as [[] [] [] [] [] [] [] []].
Qed.

Lemma apply_substitutions_app_skip table :
  ∀ pre s,
    forallb plain_entry table = true →
    PyStr.has_char "{" pre = false →
    apply_substitutions table (pre +:+ s) = pre +:+ apply_substitutions table s.
Proof.
  induction table as [|[old new] table IH]; intros pre s Hplain Hpre; [done|].
  cbn [forallb] in Hplain. apply andb_true_iff in Hplain as [Hentry Hplain].
  destruct (plain_entry_inv _ _ Hentry) as (r & -> & _ & _).
  by rewrite !apply_substitutions_cons, replace_app_skip, IH.
Qed.

(** In a table of plain entries that begin differently, a token in front
    of the text is replaced by its placeholder and the rest is translated
    on its own. *)
Lemma apply_substitutions_token table :
  ∀ old new s,
    forallb plain_entry table = true →
    independent table = true →
    (old, new) ∈ table →
    apply_substitutions table (old +:+ s) = new +:+ apply_substitutions table s.
Proof.
  induction table as [|[old1 new1] table IH]; intros old new s Hplain Hind Hin.
  { by apply elem_of_nil in Hin. }
  cbn [forallb] in Hplain. apply andb_true_iff in Hplain as [Hentry Hplain].
  cbn [independent fst] in Hind. apply andb_true_iff in Hind as [Hapart Hind].
  destruct (plain_entry_inv _ _ Hentry) as (r1 & -> & Hr1 & Hnew1).
  rewrite !apply_substitutions_cons.
  apply elem_of_cons in Hin as [[= -> ->]|Hin].
  - by rewrite replace_app_match, apply_substitutions_app_skip.
  - assert (plain_entry (old, new) = true) as Hold.
    { rewrite forallb_forall in Hplain. by apply Hplain, list_elem_of_In. }
    destruct (plain_entry_inv _ _ Hold) as (r & -> & Hr & Hnew).
    rewrite replace_app_token; [by apply IH|done|].
    rewrite forallb_forall in Hapart.
    by apply (Hapart (String "{" r, new)), list_elem_of_In.
Qed.

Lemma fixed_substitutions_plain : forallb plain_entry fixed_substitutions = true.
Proof. reflexivity. Qed.

Lemma fixed_substitutions_independent : independent fixed_substitutions = true.
Proof. reflexivity. Qed.

Lemma substitute_fixed_table parent d :
  substitute parent d
  = apply_substitutions fixed_substitutions
      (PyStr.replace (parent_token parent) "<name>" d).
Proof. reflexivity. Qed.

(** X6: text without an opening brace in front of a definition is copied
    as it is, and what follows is translated on its own: the literal parts
    of a path are never changed. *)
Theorem substitute_literal (parent pre s : string) :
  PyStr.has_char "{" pre = false →
  substitute parent (pre +:+ s) = pre +:+ substitute parent s.
Proof.
  intros Hpre. rewrite !substitute_fixed_table.
  unfold parent_token. change ("{" +:+ parent +:+ "}") with (String "{" (parent +:+ "}")).
  rewrite replace_app_skip by done.
  by apply apply_substitutions_app_skip.
Qed.

Lemma substitute_literal_witness :
  substitute "Sequence" ("sequences/" +:+ "{Sequence}/{Shot}")
  = "sequences/" +:+ substitute "Sequence" "{Sequence}/{Shot}".
Proof. apply (substitute_literal "Sequence" "sequences/" "{Sequence}/{Shot}"). reflexivity. Defined.

(** X7: the token of the configured parent entity type in front of the
    text becomes "<name>", whatever the type's name is, and the rest is
    translated on its own; it is replaced first,
    so that a parent entity type called Shot turns "{Shot}" into "<name>"
    and not into "<shot name>". *)
Theorem substitute_parent_token (parent s : string) :
  substitute parent (parent_token parent +:+ s) = "<name>" +:+ substitute parent s.
Proof.
  rewrite !substitute_fixed_table.
  unfold parent_token. change ("{" +:+ parent +:+ "}") with (String "{" (parent +:+ "}")).
  rewrite replace_app_match.
  by apply apply_substitutions_app_skip.
Qed.

(** X8: each of the twelve fixed tokens in front of the text becomes its
    placeholder, and the rest is translated on its own, provided the token
    of the parent entity type does not begin like it. *)
Theorem substitute_fixed_token (parent old new s : string) :
  (old, new) ∈ fixed_substitutions →
  apart (parent_token parent) old = true →
  substitute parent (old +:+ s) = new +:+ substitute parent s.
Proof.
  intros Hin Hapart. rewrite !substitute_fixed_table.
  assert (plain_entry (old, new) = true) as Hold.
  { pose proof fixed_substitutions_plain as Hplain.
    rewrite forallb_forall in Hplain. by apply Hplain, list_elem_of_In. }
  destruct (plain_entry_inv _ _ Hold) as (r & -> & Hr & Hnew).
  unfold parent_token in *.
  change ("{" +:+ parent +:+ "}") with (String "{" (parent +:+ "}")) in *.
  rewrite replace_app_token by done.
  by apply apply_substitutions_token.
Qed.

Lemma substitute_fixed_token_witness :
  substitute "Sequence" ("{segment_name}" +:+ "_{Shot}.dpx")
  = "<segment name>" +:+ substitute "Sequence" "_{Shot}.dpx".
Proof.
  apply (substitute_fixed_token "Sequence" "{segment_name}" "<segment name>" "_{Shot}.dpx").
  - apply list_elem_of_In. right. left. reflexivity.
  - reflexivity.
Defined.

Lemma apply_substitutions_cons_other table :
  ∀ c x,
    forallb well_formed_entry table = true →
    forallb (λ e, negb (PyStr.startswith e.1 (String c x))) table = true →
    apply_substitutions table (String c x) = String c (apply_substitutions table x).
Proof.
  induction table as [|[old new] table IH]; intros c x Hwf Hno; [done|].
  cbn [forallb] in Hwf. apply andb_true_iff in Hwf as [Hentry Hwf].
  destruct (well_formed_entry_inv _ _ Hentry) as (r & n & -> & Hr & -> & Hn).
  cbn [forallb fst] in Hno. apply andb_true_iff in Hno as [Hhead%negb_true_iff Hno].
  rewrite !apply_substitutions_cons, replace_cons_other by done.
  apply IH; [done|].
  apply forallb_forall. intros [old' new'] Hin. cbn [fst].
  apply negb_true_iff, not_true_is_false. intros Hstart.
  rewrite forallb_forall in Hwf, Hno.
  destruct (well_formed_entry_inv _ _ (Hwf _ Hin)) as (r' & n' & -> & Hr' & -> & Hn').
  specialize (Hno _ Hin). cbn [fst] in Hno. apply negb_true_iff in Hno.
  cbn [PyStr.startswith] in Hstart, Hno.
  apply andb_true_iff in Hstart as [Hc Hstart].
  apply startswith_replace in Hstart; [|done].
  by rewrite Hc, Hstart in Hno.
Qed.

(** X9: where none of the thirteen tokens begins, the character is copied
    and the rest is translated on its own; a token the table does not know,
    such as "{Step}", is therefore left as it is. *)
Theorem substitute_unmatched (parent : string) (c : ascii) (x : string) :
  PyStr.has_char "<" parent = false →
  forallb (λ e, negb (PyStr.startswith e.1 (String c x))) (substitutions parent) = true →
  substitute parent (String c x) = String c (substitute parent x).
Proof.
  intros Hp Hno. rewrite !substitute_table.
  apply apply_substitutions_cons_other; [|done].
  by apply substitutions_well_formed.
Qed.

Lemma substitute_unmatched_witness :
  substitute "Sequence" "{Step}/{Shot}" = String "{" (substitute "Sequence" "Step}/{Shot}").
Proof.
  apply (substitute_unmatched "Sequence" "{" "Step}/{Shot}"); reflexivity.
Defined.

(** X10: for a parent entity type without "<" in its name, none of the
    thirteen tokens is left in the substituted definition, nor in the
    translated template. *)
Theorem substitute_no_token_left (parent d tok : string) :
  PyStr.has_char "<" parent = false →
  tok ∈ (substitutions parent).*1 →
  PyStr.occurs tok (substitute parent d) = false ∧
  PyStr.occurs tok (resolve_flame_template parent d) = false.
Proof.
  intros Hp Htok.
  pose proof (substitute_absent parent d tok Hp Htok) as Habsent.
  split; [done|].
  pose proof (tokens_of_table _ _ (substitutions_well_formed _ Hp) Htok) as Htoken.
  destruct (is_token_inv _ Htoken) as (r & -> & Hr).
  unfold resolve_flame_template.
  destruct (carry_ext_cut (substitute parent d)) as (n & -> & _).
  rewrite (occurs_app_angle r _ "ext>") by done.
  by apply occurs_take.
Qed.

Lemma substitute_no_token_left_witness :
  PyStr.occurs "{Shot}" (substitute "Sequence" "{Sho{Shot}t}/{Shot}.dpx") = false ∧
  PyStr.occurs "{Shot}" (resolve_flame_template "Sequence" "{Sho{Shot}t}/{Shot}.dpx") = false.
Proof.
  apply (substitute_no_token_left "Sequence" "{Sho{Shot}t}/{Shot}.dpx" "{Shot}").
  - reflexivity.
  - apply list_elem_of_In. right. left. reflexivity.
Defined.

(** ** Loading the presets *)

Lemma load_presets_app app l1 l2 acc :
  load_presets app (l1 ++ l2) acc = (load_presets app l1 acc ≫= load_presets app l2).
Proof.
  revert acc. induction l1 as [|raw l1 IH]; intros acc; [done|].
  simpl. destruct (getitem raw "name") as [name|e]; [|done].
  rewrite !bind_Ok. apply IH.
Qed.

Lemma load_presets_named app raws :
  ∀ acc, (∀ raw, raw ∈ raws → is_Some (raw !! "name")) →
         ∃ export_presets, load_presets app raws acc = Ok export_presets.
Proof.
  induction raws as [|raw rest IH]; intros acc Hnames; [by eexists|].
  destruct (Hnames raw) as [name Hname]; [left|].
  simpl. rewrite (getitem_Some _ _ _ Hname), bind_Ok.
  apply IH. intros r Hr. apply Hnames. by right.
Qed.

Lemma load_presets_nameless app raws :
  ∀ acc, (∃ raw, raw ∈ raws ∧ raw !! "name" = None) →
         load_presets app raws acc = Raise (KeyError "name").
Proof.
  induction raws as [|raw rest IH]; intros acc (r & Hin & Hr).
  { by apply elem_of_nil in Hin. }
  simpl. destruct (raw !! "name") as [name|] eqn:Hname.
  - rewrite (getitem_Some _ _ _ Hname), bind_Ok. apply IH.
    apply elem_of_cons in Hin as [->|Hin]; [congruence|eauto].
  - by rewrite (getitem_None _ _ Hname).
Qed.

Lemma load_presets_lookup_other app raws preset_name :
  ∀ acc export_presets,
    load_presets app raws acc = Ok export_presets →
    (∀ raw, raw ∈ raws → raw !! "name" ≠ Some preset_name) →
    export_presets !! preset_name = acc !! preset_name.
Proof.
  induction raws as [|raw rest IH]; intros acc m Hload Hother; simpl in Hload.
  - by injection Hload as <-.
  - apply bind_Ok_inv in Hload as (name & Hname%getitem_Ok_inv & Hload).
    rewrite (IH _ _ Hload); [|intros r Hr; apply Hother; by right].
    apply lookup_insert_ne. intros ->. by apply (Hother raw); [left|].
Qed.

Lemma load_presets_dom app raws preset_name :
  ∀ acc export_presets,
    load_presets app raws acc = Ok export_presets →
    is_Some (export_presets !! preset_name) ↔
    is_Some (acc !! preset_name) ∨
    ∃ raw, raw ∈ raws ∧ raw !! "name" = Some preset_name.
Proof.
  induction raws as [|raw rest IH]; intros acc m Hload; simpl in Hload.
  - injection Hload as <-. split; [by left|].
    intros [?|(r & Hin & _)]; [done|]. by apply elem_of_nil in Hin.
  - apply bind_Ok_inv in Hload as (name & Hname%getitem_Ok_inv & Hload).
    rewrite (IH _ _ Hload), lookup_insert_is_Some. split.
    + intros [[->|[_ Hacc]]|(r & Hin & Hr)].
      * right. exists raw. split; [left|done].
      * by left.
      * right. exists r. split; [by right|done].
    + intros [Hacc|(r & [->|Hin]%elem_of_cons & Hr)].
      * left. destruct (decide (name = preset_name)); auto.
      * left. left. congruence.
      * right. eauto.
Qed.

Lemma load_presets_from app raws :
  ∀ acc export_presets,
    load_presets app raws acc = Ok export_presets →
    ∀ preset_name preset,
      export_presets !! preset_name = Some preset →
      acc !! preset_name = Some preset ∨
      (_app preset = app ∧ _raw_preset preset ∈ raws).
Proof.
  induction raws as [|raw rest IH]; intros acc m Hload n p Hp; simpl in Hload.
  - injection Hload as <-. by left.
  - apply bind_Ok_inv in Hload as (name & Hname%getitem_Ok_inv & Hload).
    destruct (IH _ _ Hload _ _ Hp) as [Hacc|[Happ Hin]].
    + apply lookup_insert_Some in Hacc as [[_ <-]|[_ Hacc]]; [|by left].
      right. split; [done|left].
    + right. split; [done|by right].
Qed.

Lemma init_Ok_inv app self :
  ExportPresetHandler_init app = Ok self →
  load_presets app (plate_presets app) ∅ = Ok (_export_presets self).
Proof.
  unfold ExportPresetHandler_init.
  intros (m & Hload & Hself%Ok_inj)%bind_Ok_inv. by subst self.
Qed.

(** X11: building the handler succeeds when every preset record has a
    "name" entry, and raises KeyError("name") when one of them has none. *)
Theorem ExportPresetHandler_init_outcome (app : App) :
  ((∀ raw, raw ∈ plate_presets app → is_Some (raw !! "name")) →
   ∃ self, ExportPresetHandler_init app = Ok self) ∧
  ((∃ raw, raw ∈ plate_presets app ∧ raw !! "name" = None) →
   ExportPresetHandler_init app = Raise (KeyError "name")).
Proof.
  unfold ExportPresetHandler_init. split.
  - intros Hnames.
    destruct (load_presets_named app _ ∅ Hnames) as [m ->]. by eexists.
  - intros Hnameless. by rewrite (load_presets_nameless app _ ∅ Hnameless).
Qed.

Lemma ExportPresetHandler_init_outcome_witness :
  ∃ self, ExportPresetHandler_init Sample.app = Ok self.
Proof.
  apply (proj1 (ExportPresetHandler_init_outcome Sample.app)).
  intros raw Hraw. apply list_elem_of_In in Hraw. simpl in Hraw.
  destruct Hraw as [<-|[<-|[]]]; by eexists.
Defined.

(** X12: the names the handler lists are the names of the records of the
    plate_presets setting, each listed once however often it is used, and
    a preset found by name wraps one of those records: one that declares
    that name. *)
Theorem get_preset_names_spec (app : App) (self : ExportPresetHandler) :
  ExportPresetHandler_init app = Ok self →
  NoDup (get_preset_names self) ∧
  (∀ preset_name,
     preset_name ∈ get_preset_names self ↔
     ∃ raw, raw ∈ plate_presets app ∧ raw !! "name" = Some preset_name) ∧
  (∀ preset_name preset,
     get_preset_by_name self preset_name = Ok preset →
     _app preset = app ∧
     _raw_preset preset ∈ plate_presets app ∧
     _raw_preset preset !! "name" = Some preset_name).
Proof.
  intros Hinit. pose proof (init_Ok_inv _ _ Hinit) as Hload. split_and!.
  - apply NoDup_fst_map_to_list.
  - intros n. rewrite elem_of_get_preset_names, (load_presets_dom _ _ _ _ _ Hload).
    rewrite lookup_empty. split; [|by right].
    intros [[? [=]]|?]; done.
  - intros n p Hp. unfold get_preset_by_name in Hp.
    destruct (_export_presets self !! n) as [p'|] eqn:Hn; [|done].
    injection Hp as ->.
    destruct (load_presets_from _ _ _ _ Hload _ _ Hn) as [Hempty|[Happ Hin]].
    { by rewrite lookup_empty in Hempty. }
    split_and!; [done..|].
    by apply getitem_Ok_inv, (init_keyed _ _ Hinit).
Qed.

Lemma get_preset_names_spec_witness :
  NoDup (get_preset_names Sample.handler) ∧
  (∀ preset_name,
     preset_name ∈ get_preset_names Sample.handler ↔
     ∃ raw, raw ∈ plate_presets Sample.app ∧ raw !! "name" = Some preset_name) ∧
  (∀ preset_name preset,
     get_preset_by_name Sample.handler preset_name = Ok preset →
     _app preset = Sample.app ∧
     _raw_preset preset ∈ plate_presets Sample.app ∧
     _raw_preset preset !! "name" = Some preset_name).
Proof. apply (get_preset_names_spec Sample.app Sample.handler). reflexivity. Defined.

(** X13: of several records with one name the last one wins: the preset
    found under a name wraps the last record of the setting with that name
    (and the app the handler was built for). *)
Theorem get_preset_by_name_last (app : App) (self : ExportPresetHandler)
    (before after : list (gmap string Setting)) (raw : gmap string Setting)
    (preset_name : Setting) :
  ExportPresetHandler_init app = Ok self →
  plate_presets app = before ++ raw :: after →
  raw !! "name" = Some preset_name →
  (∀ later, later ∈ after → later !! "name" ≠ Some preset_name) →
  get_preset_by_name self preset_name = Ok {| _app := app; _raw_preset := raw |}.
Proof.
  intros Hload%init_Ok_inv Hsplit Hname Hafter.
  rewrite Hsplit, load_presets_app in Hload.
  apply bind_Ok_inv in Hload as (m1 & _ & Hload). simpl in Hload.
  rewrite (getitem_Some _ _ _ Hname), bind_Ok in Hload.
  unfold get_preset_by_name.
  by rewrite (load_presets_lookup_other _ _ _ _ _ Hload Hafter), lookup_insert_eq.
Qed.

Lemma get_preset_by_name_last_witness :
  get_preset_by_name Duplicate.handler (SStr "Plates")
  = Ok {| _app := Duplicate.app; _raw_preset := Duplicate.raw_second |}.
Proof.
  apply (get_preset_by_name_last Duplicate.app Duplicate.handler
           [Duplicate.raw_first; Sample.raw_review] [] Duplicate.raw_second
           (SStr "Plates"));
    [reflexivity..|].
  intros later Hlater. by apply elem_of_nil in Hlater.
Defined.

Lemma first_matching_Some presets path preset :
  first_matching presets path = Ok (Some preset) →
  preset ∈ presets ∧ accepts preset path.
Proof.
  induction presets as [|p rest IH]; simpl; [done|].
  intros (template & Ht & Hscan)%bind_Ok_inv.
  destruct template as [t|]; [|done]. simpl in Hscan.
  destruct (validate t path) eqn:Hv.
  - injection Hscan as <-. split; [left|]. by exists t.
  - destruct (IH Hscan). split; [by right|done].
Qed.

(** X14: the preset found for a render path is one the handler also finds
    by name: it has a name, [get_preset_by_name] returns it for that name,
    and its render template validates the path. *)
Theorem get_preset_for_render_path_by_name (app : App) (self : ExportPresetHandler)
    (path : string) (preset : ExportPreset) :
  ExportPresetHandler_init app = Ok self →
  get_preset_for_render_path self path = Ok (Some preset) →
  accepts preset path ∧
  ∃ preset_name,
    get_name preset = Ok preset_name ∧
    preset_name ∈ get_preset_names self ∧
    get_preset_by_name self preset_name = Ok preset.
Proof.
  intros Hinit [[n Hn]%elem_of_presets Haccepts]%first_matching_Some.
  split; [done|]. exists n. split_and!.
  - by apply (init_keyed _ _ Hinit).
  - apply elem_of_get_preset_names. eauto.
  - unfold get_preset_by_name. by rewrite Hn.
Qed.

Lemma get_preset_for_render_path_by_name_witness :
  accepts Sample.rev "review/take3" ∧
  ∃ preset_name,
    get_name Sample.rev = Ok preset_name ∧
    preset_name ∈ get_preset_names Sample.handler ∧
    get_preset_by_name Sample.handler preset_name = Ok Sample.rev.
Proof.
  apply (get_preset_for_render_path_by_name Sample.app Sample.handler
           "review/take3" Sample.rev); reflexivity.
Defined.

(** ** Quicktime output and publish names together *)

(** X15: [make_highres_quicktime] tells whether the quicktime operations
    can be used: a quicktime path is only ever returned when it answers
    true, and when it answers false [quicktime_path_from_render_path]
    raises TankError and [get_quicktime_publish_name] gives "Unknown", for
    every path. *)
Theorem make_highres_quicktime_guards `{R : ReprDict}
    (self : ExportPreset) (path : string) :
  (∀ quicktime_path,
     quicktime_path_from_render_path self path = Ok quicktime_path →
     make_highres_quicktime self = Ok true) ∧
  (make_highres_quicktime self = Ok false →
   (∃ msg, quicktime_path_from_render_path self path = Raise (TankError msg)) ∧
   get_quicktime_publish_name self path = Ok "Unknown").
Proof.
  unfold make_highres_quicktime, quicktime_path_from_render_path,
    get_quicktime_publish_name.
  destruct (get_quicktime_template self) as [[t|]|e]; split; try done.
  intros _. split; [by eexists|done].
Qed.

Lemma make_highres_quicktime_guards_witness :
  (∃ msg, quicktime_path_from_render_path (R := Sample.repr) Sample.rev "review/take3"
          = Raise (TankError msg)) ∧
  get_quicktime_publish_name Sample.rev "review/take3" = Ok "Unknown".
Proof.
  apply (proj2 (make_highres_quicktime_guards (R := Sample.repr) Sample.rev "review/take3")).
  reflexivity.
Defined.

(** X16: when the quicktime template gives back, for the path it builds,
    the Shot and segment_name fields it was given, the quicktime made from
    a render gets the publish name of the render. *)
Theorem publish_names_agree `{R : ReprDict} (self : ExportPreset)
    (render_template quicktime_template : Template)
    (render_path quicktime_path : string)
    (fields quicktime_fields : gmap string FieldVal) :
  get_render_template self = Ok (Some render_template) →
  get_quicktime_template self = Ok (Some quicktime_template) →
  validate render_template render_path = true →
  get_fields render_template render_path = Ok fields →
  apply_fields quicktime_template fields = Ok quicktime_path →
  validate quicktime_template quicktime_path = true →
  get_fields quicktime_template quicktime_path = Ok quicktime_fields →
  quicktime_fields !! "Shot" = fields !! "Shot" →
  quicktime_fields !! "segment_name" = fields !! "segment_name" →
  quicktime_path_from_render_path self render_path = Ok quicktime_path ∧
  get_quicktime_publish_name self quicktime_path
    = get_render_publish_name self render_path.
Proof.
  intros Hrt Hqt Hv Hf Ha Hqv Hqf Hshot Hsegment. split.
  - unfold quicktime_path_from_render_path.
    rewrite Hqt, !bind_Ok, Hrt, bind_Ok. simpl. by rewrite Hf, bind_Ok.
  - unfold get_quicktime_publish_name, get_render_publish_name.
    rewrite Hqt, Hrt, !bind_Ok.
    rewrite (get_publish_name_valid _ _ _ Hv Hf), (get_publish_name_valid _ _ _ Hqv Hqf).
    unfold publish_name_of. by rewrite Hshot, Hsegment.
Qed.

Lemma publish_names_agree_witness :
  quicktime_path_from_render_path (R := Sample.repr) Sample.dpx Sample.render_path
    = Ok Sample.quicktime_path ∧
  get_quicktime_publish_name Sample.dpx Sample.quicktime_path
    = get_render_publish_name Sample.dpx Sample.render_path.
Proof.
  apply (publish_names_agree (R := Sample.repr) Sample.dpx Sample.plate Sample.quicktime
           Sample.render_path Sample.quicktime_path
           Sample.fields (delete "SEQ" Sample.fields));
    reflexivity.
Defined.

(** ** The export preset xml *)

Lemma unlines_cons l1 l2 ls :
  unlines (l1 :: l2 :: ls) = l1 +:+ newline +:+ unlines (l2 :: ls).
Proof. reflexivity. Qed.

Lemma scaffold_head preset_version :
  ∃ rest, scaffold preset_version
          = (xml_head +:+ preset_version +:+ dq +:+ ">") +:+ rest.
Proof.
  unfold scaffold. rewrite 2!unlines_cons.
  match goal with |- context [unlines ?ls] => generalize (unlines ls) end.
  intros tail. exists (newline +:+ tail).
  unfold xml_head. rewrite !append_assoc. reflexivity.
Qed.

Lemma attr_Ok_inv {A} template name (f : Template → Result A) a :
  attr template name f = Ok a → ∃ t, template = Some t ∧ f t = Ok a.
Proof. destruct template as [t|]; [|done]. eauto. Qed.

(** The four translated definitions, by the names of the settings *)
Lemma resolved_lookup parent plate batch shot_clip segment_clip :
  let resolved : gmap string string :=
    resolve_flame_template parent <$>
      (<["segment_clip_template" := segment_clip]>
        (<["shot_clip_template" := shot_clip]>
          (<["batch_template" := batch]>
            (<["plate_template" := plate]> ∅)))) in
  getitem resolved "plate_template" = Ok (resolve_flame_template parent plate) ∧
  getitem resolved "segment_clip_template" = Ok (resolve_flame_template parent segment_clip) ∧
  getitem resolved "batch_template" = Ok (resolve_flame_template parent batch) ∧
  getitem resolved "shot_clip_template" = Ok (resolve_flame_template parent shot_clip).
Proof.
  intros resolved. unfold getitem, resolved. rewrite !lookup_fmap.
  split_and!.
  - by rewrite !lookup_insert_ne, lookup_insert_eq by done.
  - by rewrite lookup_insert_eq.
  - by rewrite !lookup_insert_ne, lookup_insert_eq by done.
  - by rewrite lookup_insert_ne, lookup_insert_eq by done.
Qed.

Lemma resolve_flame_templates_Ok self t batch shot_clip segment_clip :
  get_render_template self = Ok (Some t) →
  get_template (_app self) "batch_template" = Some batch →
  get_template (_app self) "shot_clip_template" = Some shot_clip →
  get_template (_app self) "segment_clip_template" = Some segment_clip →
  ∃ resolved,
    resolve_flame_templates self = Ok resolved ∧
    let parent := shot_parent_entity_type (_app self) in
    getitem resolved "plate_template"
      = Ok (resolve_flame_template parent (definition t)) ∧
    getitem resolved "segment_clip_template"
      = Ok (resolve_flame_template parent (definition segment_clip)) ∧
    getitem resolved "batch_template"
      = Ok (resolve_flame_template parent (definition batch)) ∧
    getitem resolved "shot_clip_template"
      = Ok (resolve_flame_template parent (definition shot_clip)).
Proof.
  intros Ht Hb Hs Hg. unfold resolve_flame_templates.
  rewrite Ht, Hb, Hs, Hg. simpl.
  eexists. split; [done|]. apply resolved_lookup.
Qed.

Lemma resolve_flame_templates_inv self resolved :
  resolve_flame_templates self = Ok resolved →
  ∃ t batch shot_clip segment_clip,
    get_render_template self = Ok (Some t) ∧
    get_template (_app self) "batch_template" = Some batch ∧
    get_template (_app self) "shot_clip_template" = Some shot_clip ∧
    get_template (_app self) "segment_clip_template" = Some segment_clip ∧
    let parent := shot_parent_entity_type (_app self) in
    getitem resolved "plate_template"
      = Ok (resolve_flame_template parent (definition t)) ∧
    getitem resolved "segment_clip_template"
      = Ok (resolve_flame_template parent (definition segment_clip)) ∧
    getitem resolved "batch_template"
      = Ok (resolve_flame_template parent (definition batch)) ∧
    getitem resolved "shot_clip_template"
      = Ok (resolve_flame_template parent (definition shot_clip)).
Proof.
  unfold resolve_flame_templates.
  intros (rt & Hrt & Hrest)%bind_Ok_inv.
  apply bind_Ok_inv in Hrest as (plate & (t & -> & [= <-])%attr_Ok_inv & Hrest).
  apply bind_Ok_inv in Hrest as (b & (bt & Hb & [= <-])%attr_Ok_inv & Hrest).
  apply bind_Ok_inv in Hrest as (s & (st & Hs & [= <-])%attr_Ok_inv & Hrest).
  apply bind_Ok_inv in Hrest as (g & (gt & Hg & [= <-])%attr_Ok_inv & Hrest).
  apply Ok_inj in Hrest as <-.
  exists t, bt, st, gt. split_and!; [done..|]. apply resolved_lookup.
Qed.

(** What [get_xml_path] does once the templates are translated and the
    hook has answered: it reads the two paddings and fills them in. *)
Lemma get_xml_steps self t batch shot_clip segment_clip preset_name video :
  _raw_preset self !! "name" = Some preset_name →
  get_render_template self = Ok (Some t) →
  get_template (_app self) "batch_template" = Some batch →
  get_template (_app self) "shot_clip_template" = Some shot_clip →
  get_template (_app self) "segment_clip_template" = Some segment_clip →
  get_video_preset (_app self) preset_name
    (cgi_escape (resolve_flame_template (shot_parent_entity_type (_app self))
                   (definition t))) true = Ok video →
  ∃ body,
    get_xml self =
      (frame_padding ← padding (Some t) "SEQ";
       version_padding ← padding (Some t) "version";
       Ok (PyStr.replace "{VERSION_PADDING}" version_padding
             (PyStr.replace "{FRAME_PADDING}" frame_padding body))).
Proof.
  intros Hname Ht Hb Hs Hg Hhook.
  destruct (resolve_flame_templates_Ok _ _ _ _ _ Ht Hb Hs Hg)
    as (resolved & Hres & Hplate & Hsegment & Hbatch & Hshot).
  cbv zeta in Hplate, Hsegment, Hbatch, Hshot.
  unfold get_xml, get_name.
  rewrite Hres, bind_Ok, Hplate, bind_Ok, (getitem_Some _ _ _ Hname), bind_Ok.
  rewrite Hhook, bind_Ok, Hsegment, bind_Ok, Hbatch, bind_Ok, Hshot, bind_Ok.
  rewrite Ht, bind_Ok. by eexists.
Qed.

Lemma padding_None t name :
  keys t !! name = None → padding (Some t) name = Raise (KeyError name).
Proof. intros Hk. unfold padding. simpl. by rewrite (getitem_None _ _ Hk). Qed.

(** X17: with a named record, resolvable templates and a hook that
    answers, [get_xml_path] builds the xml exactly when the render template
    has a SEQ and a version key; without the SEQ key it raises
    KeyError("SEQ"), and with it but without the version key
    KeyError("version"). *)
Theorem get_xml_outcome (self : ExportPreset) (t batch shot_clip segment_clip : Template)
    (preset_name : Setting) (video : string) :
  _raw_preset self !! "name" = Some preset_name →
  get_render_template self = Ok (Some t) →
  get_template (_app self) "batch_template" = Some batch →
  get_template (_app self) "shot_clip_template" = Some shot_clip →
  get_template (_app self) "segment_clip_template" = Some segment_clip →
  get_video_preset (_app self) preset_name
    (cgi_escape (resolve_flame_template (shot_parent_entity_type (_app self))
                   (definition t))) true = Ok video →
  (keys t !! "SEQ" = None → get_xml self = Raise (KeyError "SEQ")) ∧
  (is_Some (keys t !! "SEQ") → keys t !! "version" = None →
   get_xml self = Raise (KeyError "version")) ∧
  (is_Some (keys t !! "SEQ") → is_Some (keys t !! "version") →
   ∃ xml, get_xml self = Ok xml).
Proof.
  intros Hname Ht Hb Hs Hg Hhook.
  destruct (get_xml_steps _ _ _ _ _ _ _ Hname Ht Hb Hs Hg Hhook) as [body ->].
  split_and!.
  - intros Hseq. by rewrite (padding_None _ _ Hseq).
  - intros [k Hseq] Hversion.
    by rewrite (padding_key _ _ _ Hseq), bind_Ok, (padding_None _ _ Hversion).
  - intros [k Hseq] [k' Hversion].
    rewrite (padding_key _ _ _ Hseq), bind_Ok, (padding_key _ _ _ Hversion), bind_Ok.
    by eexists.
Qed.

Lemma get_xml_outcome_witness :
  ∃ xml, get_xml Sample.dpx = Ok xml.
Proof.
  refine (proj2 (proj2 (get_xml_outcome Sample.dpx Sample.plate _ _ _
            (SStr "10 bit DPX") _ eq_refl eq_refl eq_refl eq_refl eq_refl eq_refl)) _ _);
    by eexists.
Defined.

(** X18: a failure of the settings hook is passed on as it is, and it comes
    first: the hook is called before the render template's keys are read,
    so its error is raised even for a template without a SEQ key. *)
Theorem get_xml_hook_failure (self : ExportPreset) (t batch shot_clip segment_clip : Template)
    (preset_name : Setting) (e : PyExc) :
  _raw_preset self !! "name" = Some preset_name →
  get_render_template self = Ok (Some t) →
  get_template (_app self) "batch_template" = Some batch →
  get_template (_app self) "shot_clip_template" = Some shot_clip →
  get_template (_app self) "segment_clip_template" = Some segment_clip →
  get_video_preset (_app self) preset_name
    (cgi_escape (resolve_flame_template (shot_parent_entity_type (_app self))
                   (definition t))) true = Raise e →
  get_xml self = Raise e.
Proof.
  intros Hname Ht Hb Hs Hg Hhook.
  destruct (resolve_flame_templates_Ok _ _ _ _ _ Ht Hb Hs Hg)
    as (resolved & Hres & Hplate & _).
  cbv zeta in Hplate. unfold get_xml, get_name.
  rewrite Hres, bind_Ok, Hplate, bind_Ok, (getitem_Some _ _ _ Hname), bind_Ok.
  by rewrite Hhook.
Qed.

Lemma get_xml_hook_failure_witness :
  get_xml HookFails.dpx = Raise (HostError "no video preset").
Proof.
  apply (get_xml_hook_failure HookFails.dpx Sample.plate
           (Sample.clip "sequences/{Sequence}/{Shot}/editorial/flame/batch/{Shot}.v{version}.batch")
           (Sample.clip "sequences/{Sequence}/{Shot}/editorial/flame/{Shot}.clip")
           (Sample.clip "sequences/{Sequence}/{Shot}/editorial/flame/sources/{segment_name}.clip")
           (SStr "10 bit DPX"));
    reflexivity.
Defined.

(** The xml is the scaffold with its six placeholders replaced in turn. *)
Lemma get_xml_Ok_inv self xml :
  get_xml self = Ok xml →
  ∃ video segment_clip batch shot_clip frame_padding version_padding,
    xml = PyStr.replace "{VERSION_PADDING}" version_padding
           (PyStr.replace "{FRAME_PADDING}" frame_padding
             (PyStr.replace "{SHOT_CLIP_NAME_PATTERN}" shot_clip
               (PyStr.replace "{BATCH_NAME_PATTERN}" batch
                 (PyStr.replace "{SEGMENT_CLIP_NAME_PATTERN}" segment_clip
                   (PyStr.replace "{VIDEO_EXPORT_PRESET}" video
                     (scaffold (preset_version (_app self)))))))).
Proof.
  intros Hxml. unfold get_xml in Hxml.
  repeat (apply bind_Ok_inv in Hxml as (? & ? & Hxml)).
  apply Ok_inj in Hxml. subst xml. eauto 10.
Qed.

(** X19: the xml that is built begins with the xml declaration and the
    preset element that carries the engine's preset version, whatever the
    hook and the templates put into it (for a version text without "{"). *)
Theorem get_xml_head (self : ExportPreset) (xml : string) :
  get_xml self = Ok xml →
  PyStr.has_char "{" (preset_version (_app self)) = false →
  ∃ rest, xml = (xml_head +:+ preset_version (_app self) +:+ dq +:+ ">") +:+ rest.
Proof.
  intros (n1 & n2 & n3 & n4 & n5 & n6 & ->)%get_xml_Ok_inv Hversion.
  destruct (scaffold_head (preset_version (_app self))) as [rest ->].
  assert (PyStr.has_char "{" (xml_head +:+ preset_version (_app self) +:+ dq +:+ ">")
          = false) as Hhead.
  { by rewrite !has_char_app, Hversion. }
  rewrite !(replace_app_skip "{") by done. by eexists.
Qed.

Lemma sample_dpx_builds : ∃ xml, get_xml Sample.dpx = Ok xml.
Proof. eexists. vm_compute. reflexivity. Qed.

Lemma get_xml_head_witness :
  ∃ xml rest, get_xml Sample.dpx = Ok xml ∧
              xml = (xml_head +:+ "4" +:+ dq +:+ ">") +:+ rest.
Proof.
  destruct sample_dpx_builds as [xml Hxml]. exists xml.
  destruct (get_xml_head Sample.dpx xml Hxml eq_refl) as [rest Hrest].
  by exists rest.
Defined.

(** X20: the name pattern the settings hook is given is the escaped
    translation of the render template's definition: it holds neither "<"
    nor ">", and it ends with the escaped extension placeholder. *)
Theorem get_xml_hook_pattern (self : ExportPreset) (xml : string) :
  get_xml self = Ok xml →
  ∃ t preset_name video pattern head,
    get_render_template self = Ok (Some t) ∧
    get_name self = Ok preset_name ∧
    pattern = cgi_escape (resolve_flame_template
                (shot_parent_entity_type (_app self)) (definition t)) ∧
    get_video_preset (_app self) preset_name pattern true = Ok video ∧
    PyStr.has_char "<" pattern = false ∧
    PyStr.has_char ">" pattern = false ∧
    pattern = head +:+ "&lt;ext&gt;".
Proof.
  intros Hxml. unfold get_xml in Hxml.
  apply bind_Ok_inv in Hxml as (resolved & Hres & Hxml).
  apply bind_Ok_inv in Hxml as (plate & Hplate & Hxml).
  apply bind_Ok_inv in Hxml as (preset_name & Hname & Hxml).
  apply bind_Ok_inv in Hxml as (video & Hhook & _).
  apply resolve_flame_templates_inv in Hres
    as (t & _ & _ & _ & Ht & _ & _ & _ & Hplate' & _).
  cbv zeta in Hplate'. rewrite Hplate' in Hplate. apply Ok_inj in Hplate as <-.
  destruct (carry_ext_cut (substitute (shot_parent_entity_type (_app self))
                             (definition t))) as (n & Hcut & _).
  exists t, preset_name, video. eexists. eexists. split_and!; [done..| | |].
  - apply cgi_escape_lt.
  - apply cgi_escape_gt.
  - unfold resolve_flame_template. rewrite Hcut, cgi_escape_app. reflexivity.
Qed.

Lemma get_xml_hook_pattern_witness :
  ∃ t preset_name video pattern head,
    get_render_template Sample.dpx = Ok (Some t) ∧
    get_name Sample.dpx = Ok preset_name ∧
    pattern = cgi_escape (resolve_flame_template
                (shot_parent_entity_type (_app Sample.dpx)) (definition t)) ∧
    get_video_preset (_app Sample.dpx) preset_name pattern true = Ok video ∧
    PyStr.has_char "<" pattern = false ∧
    PyStr.has_char ">" pattern = false ∧
    pattern = head +:+ "&lt;ext&gt;".
Proof.
  destruct sample_dpx_builds as [xml Hxml].
  exact (get_xml_hook_pattern Sample.dpx xml Hxml).
Defined.
